(** * generate_interactive_graph.py: a shallow embedding and its properties

    The script turns a DOT description into an interactive PyVis page.
    This development embeds the parts of it that carry behaviour of their
    own: the quote cleaning of attribute values, the cluster extraction of
    [parse_dot_file], the colour table of [generate_group_styles], the
    per-node and per-edge attribute mapping of [create_interactive_graph],
    and the script injection of [inject_custom_js].

    Python strings are modelled as [string], the bytes of their UTF-8
    encoding; Python dictionaries keyed by strings as [gmap string _]; a
    function that may raise returns a [result]. *)

From Stdlib Require Import ZArith NArith Ascii String List Bool Lia HexadecimalString.
From Stdlib Require Import HexadecimalFacts HexadecimalPos HexadecimalN.
From stdpp Require Import base option list gmap strings.

Set Warnings "-register-all".
Local Open Scope string_scope.

(** ** Python values and exceptions *)

(** The values an attribute or a label can hold at run time. *)
Inductive pyval : Type :=
  | PNone
  | PBool (b : bool)
  | PInt (z : Z)
  | PStr (s : string)
  | PList (l : list pyval).

Inductive pyexn : Type :=
  | IndexError
  | AttributeError
  | ValueError
  | OverflowError
  | OSError.

Inductive result (A : Type) : Type :=
  | Ok (a : A)
  | Raise (e : pyexn).
Arguments Ok {A} a.
Arguments Raise {A} e.

(** Sequencing: an exception raised by the first step skips the rest. *)
#[global] Instance result_ret : MRet result := fun A a => Ok a.
#[global] Instance result_bind : MBind result := fun A B k r =>
  match r with
  | Ok a => k a
  | Raise e => Raise e
  end.

(** Truth value of a Python object, as tested by [if v] and [v if c else w]. *)
Definition truthy (v : pyval) : bool :=
  match v with
  | PNone => false
  | PBool b => b
  | PInt z => negb (z =? 0)%Z
  | PStr s => negb (String.eqb s "")
  | PList l => match l with [] => false | _ => true end
  end.

(** ** String methods used by the script *)

Module PyStr.

(** The double quote character, code 34. *)
Definition dquote_char : ascii := "034"%char.
Definition dquote : string := String dquote_char EmptyString.

(** [c in chars] for a character and the argument of [strip]. *)
Fixpoint char_in (c : ascii) (chars : string) : bool :=
  match chars with
  | EmptyString => false
  | String d rest => Ascii.eqb c d || char_in c rest
  end.

(** [s.lstrip(chars)] *)
Fixpoint lstrip (chars s : string) : string :=
  match s with
  | EmptyString => EmptyString
  | String c rest => if char_in c chars then lstrip chars rest else s
  end.

(** [s.rstrip(chars)] *)
Fixpoint rstrip (chars s : string) : string :=
  match s with
  | EmptyString => EmptyString
  | String c rest =>
      match rstrip chars rest with
      | EmptyString => if char_in c chars then EmptyString else String c EmptyString
      | kept => String c kept
      end
  end.

(** [s.strip(chars)]: every leading and every trailing character that
    belongs to [chars] is removed. *)
Definition strip (chars s : string) : string := rstrip chars (lstrip chars s).

(** [s.startswith(p)] *)
Definition startswith (s p : string) : bool := String.prefix p s.

(** [s.endswith(p)]: [p] is [s] itself or a suffix of the tail of [s]. *)
Fixpoint endswith (s p : string) : bool :=
  String.eqb s p ||
  match s with
  | EmptyString => false
  | String _ rest => endswith rest p
  end.

(** [s[:n]] and [s[n:]] for [0 <= n]. *)
Fixpoint take (n : nat) (s : string) : string :=
  match n, s with
  | S k, String c rest => String c (take k rest)
  | _, _ => EmptyString
  end.

Fixpoint drop (n : nat) (s : string) : string :=
  match n, s with
  | S k, String _ rest => drop k rest
  | _, _ => s
  end.

(** [s[1:-1]] *)
Definition slice_1_m1 (s : string) : string :=
  take (String.length s - 2) (drop 1 s).

(** [s.rfind(sub)]: the highest index at which [sub] occurs, or [-1]. *)
Fixpoint rfind (s sub : string) : Z :=
  match s with
  | EmptyString => if String.eqb sub EmptyString then 0 else (-1)
  | String _ rest =>
      let r := rfind rest sub in
      if (0 <=? r)%Z then (r + 1)%Z
      else if String.prefix sub s then 0%Z else (-1)%Z
  end.

(** A run of [n] quote characters. *)
Fixpoint quotes (n : nat) : string :=
  match n with
  | O => EmptyString
  | S k => String dquote_char (quotes k)
  end.

End PyStr.

Import PyStr.

(** ** clean_attribute (lines 59-71) *)

Definition clean_attribute (value : pyval) : pyval :=
  match value with
  | PStr s => PStr (strip dquote s)
  | _ => value
  end.

(** A string that starts or ends with a quote character. *)
Definition quote_at_an_end (s : string) : bool :=
  startswith s dquote || endswith s dquote.

(** A string wrapped in matching quote characters: a quote at both ends. *)
Definition wrapped_in_quotes (s : string) : bool :=
  (2 <=? String.length s)%nat && startswith s dquote && endswith s dquote.

(** The reading of the cleaning as the removal of one pair: a value
    wrapped in quotes loses exactly its first and its last character. *)
Definition removes_exactly_one_pair : Prop :=
  forall s, wrapped_in_quotes s = true ->
            clean_attribute (PStr s) = PStr (slice_1_m1 s).

(** [clean_attribute] at a string, which is what every attribute of a
    parsed description is. *)
Definition clean_text (s : string) : string :=
  match clean_attribute (PStr s) with
  | PStr cleaned => cleaned
  | _ => s
  end.

(** ** The parsed description, as pydot hands it over *)

Record pydot_node : Type := Node { node_get_name : string }.

(** A subgraph: [get_name()], [get_label()] ([PNone] when no label is
    declared), [get_nodes()] and [get_subgraphs()]. *)
Inductive pydot_subgraph : Type :=
  | Subgraph (name : string) (label : pyval)
             (nodes : list pydot_node) (subgraphs : list pydot_subgraph).

Definition get_name (sg : pydot_subgraph) : string :=
  match sg with Subgraph name _ _ _ => name end.
Definition get_label (sg : pydot_subgraph) : pyval :=
  match sg with Subgraph _ label _ _ => label end.
Definition get_nodes (sg : pydot_subgraph) : list pydot_node :=
  match sg with Subgraph _ _ nodes _ => nodes end.
Definition get_subgraphs (sg : pydot_subgraph) : list pydot_subgraph :=
  match sg with Subgraph _ _ _ subgraphs => subgraphs end.

(** The top-level graph; only its [get_subgraphs()] is read here. *)
Record pydot_graph : Type := Dot { graph_get_subgraphs : list pydot_subgraph }.

(** ** parse_dot_file, cluster extraction (lines 38-53)

    [Raise e] is the [except Exception] branch: the message is printed and
    the process exits with status 1. *)

(** Lines 43-47: the cluster label of a subgraph named [cluster_name]. *)
Definition cluster_label_of (cluster_name : string) (label : pyval) : result string :=
  cluster_label ←
    match label with
    | PList [] => Raise IndexError
    | PList (first :: _) => Ok first
    | _ => Ok label
    end;
  if truthy cluster_label then
    match cluster_label with
    | PStr s => Ok (strip dquote s)
    | _ => Raise AttributeError
    end
  else Ok cluster_name.

(** Lines 49-52: the key under which a node of a subgraph is stored. *)
Definition node_key (node : pydot_node) : string :=
  let node_name := strip dquote (node_get_name node) in
  if startswith node_name dquote && endswith node_name dquote
  then slice_1_m1 node_name
  else node_name.

(** Lines 40-53: one iteration of the loop over the subgraphs. *)
Definition scan_subgraph (clusters : gmap string string) (subgraph : pydot_subgraph)
  : result (gmap string string) :=
  let cluster_name := strip dquote (get_name subgraph) in
  if startswith cluster_name "cluster_" then
    cluster_label ← cluster_label_of cluster_name (get_label subgraph);
    Ok (foldl (fun acc node => <[node_key node := cluster_label]> acc)
              clusters (get_nodes subgraph))
  else Ok clusters.

(** The loop of line 39 over [pydot_graph.get_subgraphs()]. *)
Fixpoint scan_subgraphs (clusters : gmap string string) (subs : list pydot_subgraph)
  : result (gmap string string) :=
  match subs with
  | [] => Ok clusters
  | subgraph :: rest =>
      clusters' ← scan_subgraph clusters subgraph;
      scan_subgraphs clusters' rest
  end.

Definition parse_dot_file (g : pydot_graph) : result (gmap string string) :=
  scan_subgraphs ∅ (graph_get_subgraphs g).

(** *** Nesting, for the statements about depth *)

(** [sg] occurs in the list [subs] or below one of its members. *)
Inductive subgraph_within : pydot_subgraph -> list pydot_subgraph -> Prop :=
  | within_here sg subs : sg ∈ subs -> subgraph_within sg subs
  | within_below sg parent subs :
      parent ∈ subs -> subgraph_within sg (get_subgraphs parent) ->
      subgraph_within sg subs.

(** [node] is declared in [sg] or in a subgraph below it. *)
Inductive node_nested_in (node : pydot_node) (sg : pydot_subgraph) : Prop :=
  | nested_direct : node ∈ get_nodes sg -> node_nested_in node sg
  | nested_below inner :
      subgraph_within inner (get_subgraphs sg) -> node ∈ get_nodes inner ->
      node_nested_in node sg.

(** A group flagged as a visual cluster: its name starts with [cluster_]. *)
Definition is_visual_cluster (sg : pydot_subgraph) : bool :=
  startswith (strip dquote (get_name sg)) "cluster_".

(** The description of the cluster map as a recursive scan: every node
    nested at any depth in a flagged group, itself at any depth, is mapped
    to the label of that group (or its name without a label). *)
Definition maps_nested_nodes_at_any_depth (g : pydot_graph) : Prop :=
  forall sg node,
    subgraph_within sg (graph_get_subgraphs g) ->
    is_visual_cluster sg = true ->
    node_nested_in node sg ->
    exists clusters cluster_label,
      parse_dot_file g = Ok clusters /\
      cluster_label_of (strip dquote (get_name sg)) (get_label sg) = Ok cluster_label /\
      clusters !! strip dquote (node_get_name node) = Some cluster_label.

(** What a subgraph list contributes to the map when only the list itself
    is scanned: a node declared directly in a flagged member, under its
    stripped name, with the label of that member. *)
Definition direct_entry (subs : list pydot_subgraph) (key label : string) : Prop :=
  exists sg node,
    sg ∈ subs /\ is_visual_cluster sg = true /\ node ∈ get_nodes sg /\
    key = strip dquote (node_get_name node) /\
    cluster_label_of (strip dquote (get_name sg)) (get_label sg) = Ok label.

(** A label the loop can use: a string or a false value. *)
Definition plain_label (v : pyval) : bool :=
  match v with
  | PStr _ => true
  | _ => negb (truthy v)
  end.

(** The same after the unwrapping of a list-valued label. *)
Definition usable_label (v : pyval) : bool :=
  match v with
  | PList [] => false
  | PList (first :: _) => plain_label first
  | _ => plain_label v
  end.

(** A structural group that holds a cluster with one node. *)
Definition nested_cluster_graph : pydot_graph :=
  Dot [Subgraph "wrapper" PNone []
         [Subgraph "cluster_inner" (PStr "Inner") [Node "x"] []]].

(** Two top-level groups, one flagged and labelled, one structural. *)
Definition flat_cluster_graph : pydot_graph :=
  Dot [Subgraph "cluster_0" (PStr (dquote +:+ "Core" +:+ dquote))
         [Node "a"; Node (dquote +:+ "b c" +:+ dquote)] [];
       Subgraph "cluster_1" PNone [Node "d"] [];
       Subgraph "legend" (PStr "Legend") [Node "e"] []].

(** ** The pseudo-random generator of the [random] module *)

Class PyRandom : Type := {
  rng_state : Type;
  (** [random.seed(a)] for an integer [a]: the state it installs. *)
  rng_seed : Z -> rng_state;
  (** [random.randint(a, b)]: the number drawn and the state left. *)
  rng_randint : Z -> Z -> rng_state -> Z * rng_state
}.

(** ** The formatting ["#%06x" % n] *)

Fixpoint zeros (n : nat) : string :=
  match n with
  | O => EmptyString
  | S k => String "0" (zeros k)
  end.

(** Zeros in front of [digits] up to [width] characters. *)
Definition zero_pad (width : nat) (digits : string) : string :=
  zeros (width - String.length digits) +:+ digits.

Definition hex_of_N (n : N) : string := NilZero.string_of_uint (N.to_hex_uint n).

(** ["%06x" % z]: lower-case hexadecimal, zero-padded to six characters,
    the sign of a negative number counting as one of them. *)
Definition format_06x (z : Z) : string :=
  if (z <? 0)%Z then String "-" (zero_pad 5 (hex_of_N (Z.to_N (- z))))
  else zero_pad 6 (hex_of_N (Z.to_N z)).

(** ** generate_unique_colors and generate_group_styles (lines 73-110) *)

Record group_style : Type := GroupStyle {
  color_background : string;
  color_border : string
}.

(** Lines 87-92: the entry written for one cluster and its colour. *)
Definition insert_style (group_styles : gmap string group_style)
    (entry : string * string) : gmap string group_style :=
  let '(cluster, color) := entry in
  <[cluster := GroupStyle color "#2B7CE9"]> group_styles.

Section Colorizer.
Context `{Rng : PyRandom}.

(** The loop of lines 107-109. *)
Fixpoint draw_colors (n : nat) (st : rng_state) : list string * rng_state :=
  match n with
  | O => ([], st)
  | S k =>
      let '(r, st1) := rng_randint 0 16777215 st in
      let '(colors, st2) := draw_colors k st1 in
      (String "#" (format_06x r) :: colors, st2)
  end.

(** The generator is module state: the function receives it and
    returns what it leaves. Line 105 seeds it first. *)
Definition generate_unique_colors (n : nat) (st : rng_state)
  : list string * rng_state :=
  draw_colors n (rng_seed 42).

(** Lines 84-93, for the order in which the set [unique_clusters] is
    iterated. *)
Definition group_styles_in_order (unique_clusters : list string) (st : rng_state)
  : gmap string group_style * rng_state :=
  let '(colors, st') := generate_unique_colors (length unique_clusters) st in
  (foldl insert_style ∅ (zip unique_clusters colors), st').

(** Line 83, [set(clusters.values())]: a Python set of strings has no
    specified iteration order; it follows the hash values, which are
    salted per interpreter process. An iteration order is any
    duplicate-free enumeration of the distinct values. *)
Definition iterates_set_of_values (clusters : gmap string string)
    (unique_clusters : list string) : Prop :=
  NoDup unique_clusters /\
  forall c, c ∈ unique_clusters <-> exists node, clusters !! node = Some c.

(** A run of [generate_group_styles] and the table it returns. *)
Definition generate_group_styles (clusters : gmap string string)
    (st : rng_state) (group_styles : gmap string group_style) : Prop :=
  exists unique_clusters,
    iterates_set_of_values clusters unique_clusters /\
    group_styles = fst (group_styles_in_order unique_clusters st).

(** Reproducibility of the table: any two runs over [clusters] return
    the same mapping. *)
Definition same_table_in_every_run (clusters : gmap string string) : Prop :=
  forall st1 st2 run1 run2,
    generate_group_styles clusters st1 run1 ->
    generate_group_styles clusters st2 run2 ->
    run1 = run2.

End Colorizer.

(** ** Floating point conversions used by the scene builder *)

Class PyFloat : Type := {
  float : Type;
  (** [float(s)] for a string [s]; [None] is the [ValueError] of a string
      that is not a number. *)
  float_of_str : string -> option float;
  (** The literal [1.0]. *)
  float_1_0 : float;
  (** [int(x)]: [ValueError] for a NaN, [OverflowError] for an infinity. *)
  int_of_float : float -> result Z;
  float_of_str_1_0 : float_of_str "1.0" = Some float_1_0
}.

(** ** create_interactive_graph, nodes and edges (lines 131-189) *)

Section SceneBuilder.
Context `{Flt : PyFloat}.

(** What [net.add_node] receives. *)
Record vis_node : Type := VisNode {
  vn_id : string;
  vn_label : string;
  vn_title : string;
  vn_url : string;
  vn_color : string;
  vn_shape : string;
  vn_font_face : string;
  vn_font_size : Z;
  vn_group : string
}.

(** What [net.add_edge] receives. *)
Record vis_edge : Type := VisEdge {
  ve_source : string;
  ve_to : string;
  ve_title : string;
  ve_color : string;
  ve_arrows : string;
  ve_width : float;
  ve_dashes : bool;
  ve_smooth : bool
}.

(** [data.get(key, dflt)] on an attribute dictionary. The attributes of
    a parsed description are strings. *)
Definition get (data : gmap string string) (key dflt : string) : string :=
  default dflt (data !! key).

(** Line 137. *)
Definition node_shape (data : gmap string string) : string :=
  if decide (data !! "shape" = Some "box") then "box" else "ellipse".

(** Lines 142-145: [int(float(fontsize))] with its [except ValueError];
    any other exception leaves the function. *)
Definition font_size (fontsize : string) : result Z :=
  match float_of_str fontsize with
  | None => Ok 14%Z
  | Some x =>
      match int_of_float x with
      | Raise ValueError => Ok 14%Z
      | converted => converted
      end
  end.

(** Lines 136 and 148. *)
Definition node_color (data : gmap string string) : string :=
  let color := clean_text (get data "fillcolor" "#97C2FC") in
  if decide (is_Some (data !! "fillcolor")) then color else "#97C2FC".

(** Lines 132-162, one node of [nx_graph.nodes(data=True)]. *)
Definition build_node (clusters : gmap string string)
    (node : string) (data : gmap string string) : result vis_node :=
  let node_id := node in
  let label := clean_text (get data "label" node) in
  let title := clean_text (get data "tooltip" "") in
  let url := clean_text (get data "URL" "") in
  let shape := node_shape data in
  let font := clean_text (get data "fontname" "Helvetica") in
  let fontsize := clean_text (get data "fontsize" "14") in
  size ← font_size fontsize;
  let group := default "default" (clusters !! node) in
  Ok (VisNode node_id (strip "<>" label) title url (node_color data)
              shape font size group).

(** Lines 174-178. *)
Definition edge_width (data : gmap string string) : float :=
  let penwidth_str := clean_text (get data "penwidth" "1.0") in
  match float_of_str penwidth_str with
  | Some width => width
  | None => float_1_0
  end.

(** Lines 166-189, one edge of [nx_graph.edges(data=True)]. The cleaned
    label and URL are computed and not passed on. *)
Definition build_edge (source target : string) (data : gmap string string)
  : vis_edge :=
  let label := clean_text (get data "label" "") in
  let title := clean_text (get data "tooltip" "") in
  let url := clean_text (get data "URL" "") in
  let color := clean_text (get data "color" "#848484") in
  let arrows := clean_text (get data "arrowhead" "normal") in
  let style := clean_text (get data "style" "solid") in
  VisEdge source target title color arrows (edge_width data)
          (if String.eqb style "dashed" then true else false) true.

(** The graph as networkx hands it over: [nodes(data=True)] and
    [edges(data=True)]. *)
Record nx_graph : Type := NxGraph {
  nx_nodes : list (string * gmap string string);
  nx_edges : list (string * string * gmap string string)
}.

(** The loop of line 131; an exception ends it. *)
Fixpoint add_nodes (clusters : gmap string string)
    (nodes : list (string * gmap string string)) : result (list vis_node) :=
  match nodes with
  | [] => Ok []
  | (node, data) :: rest =>
      vn ← build_node clusters node data;
      vns ← add_nodes clusters rest;
      Ok (vn :: vns)
  end.

(** The loop of line 165. *)
Definition add_edges (edges : list (string * string * gmap string string))
  : list vis_edge :=
  map (fun '(source, target, data) => build_edge source target data) edges.

(** Lines 131-189: the nodes and the edges handed to PyVis. *)
Definition create_interactive_graph (g : nx_graph)
    (clusters : gmap string string) : result (list vis_node * list vis_edge) :=
  nodes ← add_nodes clusters (nx_nodes g);
  Ok (nodes, add_edges (nx_edges g)).

End SceneBuilder.

(** ** inject_custom_js (lines 244-311) *)

(** The script block of lines 256-294, line by line. *)
Definition newline : string := String "010"%char EmptyString.

Definition custom_js : string :=
  String.concat newline [
    "";
    "        <script type=" +:+ dquote +:+ "text/javascript" +:+ dquote +:+ ">";
    "            // Function to toggle visibility of connected nodes";
    "            function toggleNode(nodeId) {";
    "                var connectedNodes = network.getConnectedNodes(nodeId);";
    "                var connectedEdges = network.getConnectedEdges(nodeId);";
    "                ";
    "                connectedNodes.forEach(function(n) {";
    "                    var node = nodes.get(n);";
    "                    if (node.hidden === undefined || node.hidden === false) {";
    "                        node.hidden = true;";
    "                        nodes.update(node);";
    "                    } else {";
    "                        node.hidden = false;";
    "                        nodes.update(node);";
    "                    }";
    "                });";
    "                ";
    "                connectedEdges.forEach(function(e) {";
    "                    var edge = edges.get(e);";
    "                    if (edge.hidden === undefined || edge.hidden === false) {";
    "                        edge.hidden = true;";
    "                        edges.update(edge);";
    "                    } else {";
    "                        edge.hidden = false;";
    "                        edges.update(edge);";
    "                    }";
    "                });";
    "            }";
    "";
    "            // Add event listener for node clicks";
    "            network.on(" +:+ dquote +:+ "click" +:+ dquote +:+ ", function(params) {";
    "                if (params.nodes.length === 1) {";
    "                    var nodeId = params.nodes[0];";
    "                    toggleNode(nodeId);";
    "                }";
    "            });";
    "        </script>";
    "        "
  ].

(** *** Text files

    A Python [str] is represented by the bytes of its UTF-8 encoding, a
    file by its bytes. Reading a file as text checks that the bytes are
    UTF-8 and translates the line ends; writing translates them back to
    the separator of the platform. The closing tag and the script block
    are ASCII, so an index counted in bytes cuts a page where the index
    counted in characters cuts the [str]. *)

Module Utf8.

(** What the decoder still expects after the bytes read so far. *)
Inductive state : Type :=
  | Start      (* at a character boundary *)
  | Cont1      (* one continuation byte *)
  | Cont2      (* two continuation bytes *)
  | Cont3      (* three continuation bytes *)
  | AfterE0    (* A0-BF, then one continuation byte: no overlong form *)
  | AfterED    (* 80-9F, then one continuation byte: no surrogate *)
  | AfterF0    (* 90-BF, then two continuation bytes: no overlong form *)
  | AfterF4.   (* 80-8F, then two continuation bytes: at most U+10FFFF *)

Definition between (lo hi : N) (b : ascii) : bool :=
  ((lo <=? N_of_ascii b) && (N_of_ascii b <=? hi))%N.

Definition step (q : state) (b : ascii) : option state :=
  match q with
  | Start =>
      if between 0 127 b then Some Start
      else if between 194 223 b then Some Cont1
      else if between 224 224 b then Some AfterE0
      else if between 225 236 b || between 238 239 b then Some Cont2
      else if between 237 237 b then Some AfterED
      else if between 240 240 b then Some AfterF0
      else if between 241 243 b then Some Cont3
      else if between 244 244 b then Some AfterF4
      else None
  | Cont1 => if between 128 191 b then Some Start else None
  | Cont2 => if between 128 191 b then Some Cont1 else None
  | Cont3 => if between 128 191 b then Some Cont2 else None
  | AfterE0 => if between 160 191 b then Some Cont1 else None
  | AfterED => if between 128 159 b then Some Cont1 else None
  | AfterF0 => if between 144 191 b then Some Cont2 else None
  | AfterF4 => if between 128 143 b then Some Cont2 else None
  end.

Fixpoint run (q : state) (s : string) : option state :=
  match s with
  | EmptyString => Some q
  | String b rest =>
      match step q b with
      | Some q' => run q' rest
      | None => None
      end
  end.

(** The bytes decode: every character is complete and well formed. *)
Definition valid (s : string) : bool :=
  match run Start s with
  | Some Start => true
  | _ => false
  end.

End Utf8.

Definition CR : ascii := "013"%char.
Definition LF : ascii := "010"%char.

(** Reading with [newline=None]: a carriage return, with the line feed
    that follows it if there is one, is read as one line feed.
    [after_cr] tells that the byte before was a carriage return. *)
Fixpoint nl_read (after_cr : bool) (s : string) : string :=
  match s with
  | EmptyString => EmptyString
  | String c rest =>
      if Ascii.eqb c LF then
        if after_cr then nl_read false rest else String LF (nl_read false rest)
      else if Ascii.eqb c CR then String LF (nl_read true rest)
      else String c (nl_read false rest)
  end.

Definition universal_newlines (s : string) : string := nl_read false s.

(** [os.linesep]: a line feed, or a carriage return and a line feed. *)
Inductive line_separator : Type := PosixLinesep | WindowsLinesep.

(** Writing with [newline=None]: every line feed becomes the separator. *)
Fixpoint nl_write (sep : line_separator) (s : string) : string :=
  match s with
  | EmptyString => EmptyString
  | String c rest =>
      if Ascii.eqb c LF then
        match sep with
        | PosixLinesep => String LF (nl_write sep rest)
        | WindowsLinesep => String CR (String LF (nl_write sep rest))
        end
      else String c (nl_write sep rest)
  end.

(** What the operating system decides: the file that a path names, and
    the line separator. *)
Class PyOS : Type := {
  file_of_path : string -> string;
  os_linesep : line_separator
}.

(** A file: its bytes, and whether it can be opened for reading and for
    writing. *)
Record file : Type := File {
  file_bytes : string;
  can_read : bool;
  can_write : bool
}.

(** [file.read()] on the bytes of a file opened with [encoding='utf-8'];
    the [ValueError] is a [UnicodeDecodeError]. *)
Definition read_text (bytes : string) : result string :=
  if Utf8.valid bytes then Ok (universal_newlines bytes) else Raise ValueError.

(** What the function prints. *)
Inductive inject_report : Type :=
  | TagNotFound          (* Error: </body> tag not found in the HTML file. *)
  | Injected             (* Custom JavaScript injected ... *)
  | InjectFailed (e : pyexn).  (* Error injecting custom JavaScript: e *)

Section Injector.
Context `{Os : PyOS}.

(** Lines 252-253: open for reading and read the whole text. *)
Definition open_read (fs : gmap string file) (path : string) : result string :=
  match fs !! file_of_path path with
  | None => Raise OSError
  | Some f => if can_read f then read_text (file_bytes f) else Raise OSError
  end.

(** Lines 306-307: open for writing, which empties the file or creates
    it, and write the text. *)
Definition open_write (fs : gmap string file) (path text : string)
  : result (gmap string file) :=
  let bytes := nl_write os_linesep text in
  match fs !! file_of_path path with
  | None => Ok (<[file_of_path path := File bytes true true]> fs)
  | Some f =>
      if can_write f
      then Ok (<[file_of_path path := File bytes (can_read f) true]> fs)
      else Raise OSError
  end.

(** The file system is a map from files to their state. Every exception
    reaches the [except Exception] of line 310, which prints it. A write
    that fails after the file was opened is not modelled. *)
Definition inject_custom_js (output_html : string) (fs : gmap string file)
  : gmap string file * inject_report :=
  match open_read fs output_html with
  | Raise e => (fs, InjectFailed e)
  | Ok html_content =>
      let insert_position := rfind html_content "</body>" in
      if (insert_position =? -1)%Z then (fs, TagNotFound)
      else
        let at_tag := Z.to_nat insert_position in
        match open_write fs output_html
                (take at_tag html_content +:+ custom_js
                 +:+ drop at_tag html_content) with
        | Ok fs' => (fs', Injected)
        | Raise e => (fs, InjectFailed e)
        end
  end.

End Injector.

(** *** Occurrences of a substring, for the statements about [rfind] *)

Definition occurs_at (sub s : string) (i : nat) : Prop :=
  (i <= String.length s)%nat /\ String.prefix sub (drop i s) = true.

Definition last_occurrence (sub s : string) (i : nat) : Prop :=
  occurs_at sub s i /\ forall j, occurs_at sub s j -> (j <= i)%nat.

(** A text without a carriage return, as every text read is. *)
Definition cr_free (s : string) : bool := negb (char_in CR s).

(** A text without a line end character, as the closing tag is. *)
Fixpoint nl_free (s : string) : bool :=
  match s with
  | EmptyString => true
  | String c rest => negb (Ascii.eqb c CR) && negb (Ascii.eqb c LF) && nl_free rest
  end.

(** ** The generator behind [random]: MT19937 as CPython seeds and reads it

    [random.seed(42)] runs [init_by_array] on the key [[42]];
    [random.randint(0, 0xFFFFFF)] is [randrange(0, 0x1000000)], which draws
    [getrandbits(25)] until the draw is below [0x1000000]. Words are
    32-bit unsigned integers, kept in [Z] and reduced modulo [2^32]. *)

Module MT19937.

Definition N : nat := 624.
Definition M : nat := 397.
Definition MATRIX_A : Z := 0x9908b0df.
Definition UPPER_MASK : Z := 0x80000000.
Definition LOWER_MASK : Z := 0x7fffffff.

Definition u32 (z : Z) : Z := z mod 4294967296.

Definition word (mt : list Z) (i : nat) : Z := default 0%Z (mt !! i).

Record state : Type := State { mt : list Z; index : nat }.

(** [init_genrand]: the words after [mt[i-1] = prev]. *)
Fixpoint init_words (n : nat) (i : Z) (prev : Z) : list Z :=
  match n with
  | O => []
  | S k =>
      let x := u32 (1812433253 * Z.lxor prev (Z.shiftr prev 30) + i) in
      x :: init_words k (i + 1) x
  end.

Definition init_genrand (s : Z) : list Z :=
  let first := u32 s in first :: init_words (N - 1) 1 first.

(** The wrap-around [if (i >= N) { mt[0] = mt[N-1]; i = 1; }]. *)
Definition wrap (mt : list Z) (i : nat) : list Z * nat :=
  if (N <=? i)%nat then (<[0%nat := word mt (N - 1)]> mt, 1%nat) else (mt, i).

(** One round of the first loop of [init_by_array]. *)
Definition key_round (init_key : list Z) (s : list Z * nat * nat) : list Z * nat * nat :=
  let '(mt, i, j) := s in
  let prev := word mt (i - 1) in
  let x := u32 (Z.lxor (word mt i) (Z.lxor prev (Z.shiftr prev 30) * 1664525)
                + word init_key j + Z.of_nat j) in
  let '(mt', i') := wrap (<[i := x]> mt) (S i) in
  (mt', i', if (length init_key <=? S j)%nat then 0%nat else S j).

(** One round of its second loop. *)
Definition mix_round (s : list Z * nat) : list Z * nat :=
  let '(mt, i) := s in
  let prev := word mt (i - 1) in
  let x := u32 (Z.lxor (word mt i) (Z.lxor prev (Z.shiftr prev 30) * 1566083941)
                - Z.of_nat i) in
  wrap (<[i := x]> mt) (S i).

Definition init_by_array (init_key : list Z) : state :=
  let '(mt1, i1, _) :=
    Nat.iter (Nat.max N (length init_key)) (key_round init_key)
             (init_genrand 19650218, 1%nat, 0%nat) in
  let '(mt2, _) := Nat.iter (N - 1) mix_round (mt1, i1) in
  State (<[0%nat := 0x80000000%Z]> mt2) N.

(** [random.seed(a)] for an integer of at most 32 bits: the key is the
    single word [abs(a)]. *)
Definition seed (a : Z) : state := init_by_array [Z.abs a].

(** The regeneration of word [kk]; the three loops of [genrand_uint32]
    are this step for [kk = 0 .. N-1] with the indices [kk+1] and
    [kk+M] taken modulo [N]. *)
Definition twist_at (mt : list Z) (kk : nat) : list Z :=
  let y := Z.lor (Z.land (word mt kk) UPPER_MASK)
                 (Z.land (word mt (S kk mod N)) LOWER_MASK) in
  <[kk := Z.lxor (Z.lxor (word mt ((kk + M) mod N)) (Z.shiftr y 1))
                 (if Z.odd y then MATRIX_A else 0%Z)]> mt.

Definition temper (y0 : Z) : Z :=
  let y1 := Z.lxor y0 (Z.shiftr y0 11) in
  let y2 := Z.lxor y1 (Z.land (Z.shiftl y1 7) 0x9d2c5680) in
  let y3 := Z.lxor y2 (Z.land (Z.shiftl y2 15) 0xefc60000) in
  Z.lxor y3 (Z.shiftr y3 18).

Definition genrand_uint32 (st : state) : Z * state :=
  let st1 :=
    if (N <=? index st)%nat then State (foldl twist_at (mt st) (seq 0 N)) 0
    else st in
  (temper (word (mt st1) (index st1)), State (mt st1) (S (index st1))).

(** [getrandbits(k)] for [0 < k <= 32]. *)
Definition getrandbits (k : Z) (st : state) : Z * state :=
  let '(r, st') := genrand_uint32 st in (Z.shiftr r (32 - k), st').

(** [n.bit_length()] for [0 < n]. *)
Definition bit_length (n : Z) : Z := Z.log2 n + 1.

(** [_randbelow_with_getrandbits]; [fuel] bounds the rejections. *)
Fixpoint randbelow (fuel : nat) (n : Z) (st : state) : option (Z * state) :=
  match fuel with
  | O => None
  | S f =>
      let '(r, st') := getrandbits (bit_length n) st in
      if (r <? n)%Z then Some (r, st') else randbelow f n st'
  end.

Definition randint (a b : Z) (st : state) : Z * state :=
  match randbelow 4096 (b - a + 1) st with
  | Some (r, st') => ((a + r)%Z, st')
  | None => (a, st)
  end.

End MT19937.

#[global] Instance mt19937_random : PyRandom := {|
  rng_state := MT19937.state;
  rng_seed := MT19937.seed;
  rng_randint := MT19937.randint
|}.

(** ** A reader for [float(s)] on ASCII text

    The grammar is the one [float] accepts: surrounding white space, a
    sign, [inf], [infinity] or [nan] in any case, or decimal digits with
    an optional point and exponent, single underscores allowed between
    digits. The value is kept as an exact decimal [mantissa * 10^exponent];
    rounding to a binary64 is not modelled, so a text beyond the range of
    a binary64 reads as a finite number and not as an infinity, and digits
    outside ASCII are not read. The theorems are stated for every
    [PyFloat]; this instance serves the samples. *)

Module DecFloat.

Inductive t : Type :=
  | NaN
  | Inf (negative : bool)
  | Fin (negative : bool) (mantissa : N) (exponent : Z).

Definition is_digit (c : ascii) : bool :=
  let n := nat_of_ascii c in (48 <=? n)%nat && (n <=? 57)%nat.

Definition digit_value (c : ascii) : N := N.of_nat (nat_of_ascii c - 48).

Definition lower (c : ascii) : ascii :=
  let n := nat_of_ascii c in
  if (65 <=? n)%nat && (n <=? 90)%nat then ascii_of_nat (n + 32) else c.

Fixpoint lower_str (s : string) : string :=
  match s with
  | EmptyString => EmptyString
  | String c rest => String (lower c) (lower_str rest)
  end.

(** Tab, line feed, vertical tab, form feed, carriage return, the four
    separators 28-31 and the space. *)
Definition whitespace : string :=
  String.string_of_list_ascii
    (map ascii_of_nat [9; 10; 11; 12; 13; 28; 29; 30; 31; 32]%nat).

(** Underscores are accepted after a digit and before a digit only, and
    are dropped. *)
Fixpoint drop_underscores (prev : ascii) (s : string) : option string :=
  match s with
  | EmptyString => if Ascii.eqb prev "_" then None else Some EmptyString
  | String c rest =>
      if Ascii.eqb c "_" then
        if is_digit prev then drop_underscores c rest else None
      else if Ascii.eqb prev "_" && negb (is_digit c) then None
      else String c <$> drop_underscores c rest
  end.

(** The leading digits of [s], most significant first, and what follows. *)
Fixpoint span_digits (s : string) : list N * string :=
  match s with
  | String c rest =>
      if is_digit c
      then let '(ds, tail) := span_digits rest in (digit_value c :: ds, tail)
      else ([], s)
  | EmptyString => ([], s)
  end.

Definition read_sign (s : string) : bool * string :=
  match s with
  | String "-" rest => (true, rest)
  | String "+" rest => (false, rest)
  | _ => (false, s)
  end.

Definition number_of (ds : list N) : N := foldl (fun acc d => (10 * acc + d)%N) 0%N ds.

(** Trailing zeros removed from the digits, counted into the exponent. *)
Fixpoint trim_zeros (rev_ds : list N) (e : Z) : list N * Z :=
  match rev_ds with
  | 0%N :: rest => trim_zeros rest (e + 1)
  | _ => (rev_ds, e)
  end.

Definition finite (negative : bool) (ds : list N) (e : Z) : t :=
  let '(rev_ds, e') := trim_zeros (rev ds) e in
  match rev_ds with
  | [] => Fin negative 0 0
  | _ => Fin negative (number_of (rev rev_ds)) e'
  end.

Definition read_exponent (s : string) : option Z :=
  match s with
  | EmptyString => Some 0%Z
  | String c rest =>
      if Ascii.eqb (lower c) "e" then
        let '(negative, rest1) := read_sign rest in
        match span_digits rest1 with
        | (d :: ds, EmptyString) =>
            let e := Z.of_N (number_of (d :: ds)) in
            Some (if negative then (- e)%Z else e)
        | _ => None
        end
      else None
  end.

Definition read_number (s : string) : option t :=
  let '(negative, body) := read_sign s in
  let word := lower_str body in
  if String.eqb word "inf" || String.eqb word "infinity" then Some (Inf negative)
  else if String.eqb word "nan" then Some NaN
  else
    let '(int_ds, after_int) := span_digits body in
    let '(frac_ds, after_frac) :=
      match after_int with
      | String "." rest => span_digits rest
      | _ => ([], after_int)
      end in
    match (int_ds ++ frac_ds)%list with
    | [] => None
    | ds =>
        e ← read_exponent after_frac;
        Some (finite negative ds (e - Z.of_nat (length frac_ds)))
    end.

Definition of_str (s : string) : option t :=
  drop_underscores "000" (strip whitespace s) ≫= read_number.

Definition to_int (x : t) : result Z :=
  match x with
  | NaN => Raise ValueError
  | Inf _ => Raise OverflowError
  | Fin negative m e =>
      let magnitude :=
        if (0 <=? e)%Z then (Z.of_N m * 10 ^ e)%Z else (Z.of_N m / 10 ^ (- e))%Z in
      Ok (if negative then (- magnitude)%Z else magnitude)
  end.

End DecFloat.

#[global] Program Instance dec_float : PyFloat := {|
  float := DecFloat.t;
  float_of_str := DecFloat.of_str;
  float_1_0 := DecFloat.Fin false 1 0;
  int_of_float := DecFloat.to_int
|}.
Next Obligation. reflexivity. Qed.

(** ** Sample inputs *)

(** Two nodes in two clusters. *)
Definition two_clusters : gmap string string :=
  <["n2" := "B"]> (<["n1" := "A"]> ∅).

(** A node whose shape is written with quotes in the description. *)
Definition quoted_box_node : gmap string string :=
  <["shape" := dquote +:+ "box" +:+ dquote]> ∅.

(** A node with a fill colour that is present and empty. *)
Definition empty_fill_node : gmap string string := <["fillcolor" := ""]> ∅.

(** An edge whose pen width is not a number. *)
Definition bogus_width_edge : gmap string string := <["penwidth" := "bogus"]> ∅.

(** A page without a closing body tag, and one with two. *)
Definition page_without_body : string := "<html><p>graph</p></html>".
Definition page_with_two_bodies : string := "<body>a</body><!-- </body> --></html>".

(** A platform for the samples: a leading [./] does not change the file
    a path names, and lines end with a line feed. *)
Fixpoint without_dot_slash (path : string) : string :=
  match path with
  | String "." (String "/" rest) => without_dot_slash rest
  | _ => path
  end.

#[global] Instance posix_os : PyOS := {|
  file_of_path := without_dot_slash;
  os_linesep := PosixLinesep
|}.

(** A file that can be read and written. *)
Definition plain_file (bytes : string) : file := File bytes true true.

(** ** Further sample inputs *)

(** A cluster whose label is an empty list, after a usable one. *)
Definition empty_list_label_graph : pydot_graph :=
  Dot [Subgraph "cluster_a" (PStr "A") [Node "a"] [];
       Subgraph "cluster_b" (PList []) [Node "b"] [];
       Subgraph "cluster_c" (PStr "C") [Node "c"] []].

(** A node declared in two clusters. *)
Definition shared_node_graph : pydot_graph :=
  Dot [Subgraph "cluster_a" (PStr "First") [Node "n"; Node "a"] [];
       Subgraph "cluster_b" (PStr "Second") [Node (dquote +:+ "n" +:+ dquote)] [];
       Subgraph "cluster_c" (PStr "Third") [Node "c"] []].

(** Two nodes in one cluster. *)
Definition one_cluster : gmap string string :=
  <["n2" := "Core"]> (<["n1" := "Core"]> ∅).

(** A graph with a repeated edge, and one whose second node has an
    infinite font size. *)
Definition small_graph : nx_graph :=
  NxGraph [("a", ∅); ("b", <["label" := "<B>"]> ∅)]
          [("a", "b", ∅); ("a", "b", <["style" := "dashed"]> ∅)].


(** The attributes of an edge that reach [add_edge]. *)
Definition edge_keys : list string :=
  ["tooltip"; "color"; "arrowhead"; "style"; "penwidth"].

(** A store with the page and a second file. *)
Definition two_file_store : gmap string file :=
  <["notes.txt" := plain_file "keep </body>"]>
    (<["graph.html" := plain_file page_with_two_bodies]> ∅).

(** A page that is not UTF-8: the byte 255, then a body. *)
Definition undecodable_page : string :=
  String (ascii_of_nat 255) "<body></body>".

(** A page whose lines end with a carriage return and a line feed. *)
Definition crlf_page : string :=
  "<body>" +:+ String CR (String LF ("</body>" +:+ String CR (String LF ""))).

(** ** Colour strings *)

Definition is_hex_digit (c : ascii) : bool := char_in c "0123456789abcdef".

Fixpoint all_chars (p : ascii -> bool) (s : string) : bool :=
  match s with
  | EmptyString => true
  | String c rest => p c && all_chars p rest
  end.

(** A number sign followed by exactly six lower-case hexadecimal digits. *)
Definition is_rgb_color (s : string) : bool :=
  match s with
  | String "#" digits => (String.length digits =? 6)%nat && all_chars is_hex_digit digits
  | _ => false
  end.

(** The words of a generator state are never negative. *)
Definition mt_words_nonneg (st : MT19937.state) : Prop :=
  Forall (fun w => (0 <= w)%Z) (MT19937.mt st).

(** * Properties *)

(** ** Facts about the string methods *)

Example strip_samples :
  map (strip dquote)
      [""; dquote; "a" +:+ dquote; dquote +:+ dquote +:+ "a b" +:+ dquote;
       "a" +:+ dquote +:+ "b"]
  = [""; ""; "a"; "a b"; "a" +:+ dquote +:+ "b"] /\
  map (strip "<>") ["<<b>Hi</b>>"; "<>"; "a<b"; ">x<"] = ["b>Hi</b"; ""; "a<b"; "x"].
Proof. split; reflexivity. Qed.

Example rfind_samples :
  map (fun '(s, sub) => rfind s sub)
      [("abcabc", "bc"); ("abc", "d"); ("", "x"); ("abc", ""); ("aaaa", "aa");
       ("a</body>b</body>", "</body>"); ("</body", "</body>")]
  = [4; -1; -1; 3; 2; 9; -1]%Z.
Proof. reflexivity. Qed.

Example endswith_samples :
  map (fun '(s, p) => endswith s p)
      [("abc", "c"); ("abc", "bc"); ("abc", "xabc"); ("abc", ""); ("", "a");
       ("abc", "b")]
  = [true; true; false; true; false; false].
Proof. reflexivity. Qed.

Example slice_1_m1_samples :
  map slice_1_m1 [""; "a"; "ab"; "abc"; "abcd"] = [""; ""; ""; "b"; "bc"].
Proof. reflexivity. Qed.

Example custom_js_length : String.length custom_js = 1488%nat.
Proof. reflexivity. Qed.

Section StripFacts.
Variable chars : string.

Lemma lstrip_head c rest s :
  lstrip chars s = String c rest -> char_in c chars = false.
Proof.
  induction s as [|d s IH]; simpl; [discriminate|].
  destruct (char_in d chars) eqn:Hd; [exact IH|].
  intros [= <- _]. exact Hd.
Qed.

Lemma lstrip_fixed c rest :
  char_in c chars = false -> lstrip chars (String c rest) = String c rest.
Proof. intros Hc. simpl. now rewrite Hc. Qed.

Lemma rstrip_cons_keep c rest :
  char_in c chars = false ->
  rstrip chars (String c rest) = String c (rstrip chars rest).
Proof.
  intros Hc. simpl. rewrite Hc. now destruct (rstrip chars rest).
Qed.

Lemma rstrip_idem s : rstrip chars (rstrip chars s) = rstrip chars s.
Proof.
  induction s as [|c s IH]; [reflexivity|].
  simpl. destruct (rstrip chars s) as [|d kept] eqn:Hs.
  - destruct (char_in c chars) eqn:Hc; [reflexivity|].
    simpl. now rewrite Hc.
  - change (rstrip chars (String c (String d kept)))
      with (match rstrip chars (String d kept) with
            | EmptyString =>
                if char_in c chars then EmptyString else String c EmptyString
            | k => String c k
            end).
    now rewrite IH.
Qed.

(** The head of a stripped string is not one of the stripped characters. *)
Lemma strip_head c rest s :
  strip chars s = String c rest -> char_in c chars = false.
Proof.
  unfold strip. destruct (lstrip chars s) as [|d t] eqn:Hl; [discriminate|].
  pose proof (lstrip_head _ _ _ Hl) as Hd.
  rewrite (rstrip_cons_keep _ _ Hd). now intros [= <- _].
Qed.

Lemma strip_idem s : strip chars (strip chars s) = strip chars s.
Proof.
  destruct (strip chars s) as [|c rest] eqn:Hs; [reflexivity|].
  pose proof (strip_head _ _ _ Hs) as Hc.
  unfold strip at 1. rewrite (lstrip_fixed _ _ Hc), <- Hs.
  apply rstrip_idem.
Qed.

End StripFacts.

(** ** Facts about quote characters *)

Lemma append_cons c s t : String c s +:+ t = String c (s +:+ t).
Proof. reflexivity. Qed.

Lemma append_nil t : EmptyString +:+ t = t.
Proof. reflexivity. Qed.

Lemma char_in_dquote c : char_in c dquote = Ascii.eqb c dquote_char.
Proof. simpl. apply orb_false_r. Qed.

Lemma startswith_dquote c rest :
  startswith (String c rest) dquote = Ascii.eqb c dquote_char.
Proof.
  unfold startswith, dquote. cbn [String.prefix].
  destruct (ascii_dec dquote_char c) as [<-|Hne].
  - rewrite Ascii.eqb_refl. now destruct rest.
  - symmetry. apply Ascii.eqb_neq. congruence.
Qed.

Lemma endswith_dquote_single c :
  endswith (String c EmptyString) dquote = Ascii.eqb c dquote_char.
Proof.
  unfold dquote. simpl. rewrite orb_false_r.
  destruct (Ascii.eqb c dquote_char); reflexivity.
Qed.

Lemma endswith_dquote_cons c d rest :
  endswith (String c (String d rest)) dquote = endswith (String d rest) dquote.
Proof.
  unfold dquote.
  change (endswith (String c (String d rest)) (String dquote_char EmptyString))
    with (String.eqb (String c (String d rest)) (String dquote_char EmptyString)
          || endswith (String d rest) (String dquote_char EmptyString)).
  simpl String.eqb. now destruct (Ascii.eqb c dquote_char).
Qed.

(** A stripped string carries no quote at its start. *)
Lemma strip_dquote_not_starts s : startswith (strip dquote s) dquote = false.
Proof.
  destruct (strip dquote s) as [|c rest] eqn:Hs; [reflexivity|].
  rewrite startswith_dquote, <- char_in_dquote.
  exact (strip_head _ _ _ _ Hs).
Qed.

(** Nor at its end. *)
Lemma rstrip_dquote_not_ends s : endswith (rstrip dquote s) dquote = false.
Proof.
  induction s as [|c s IH]; [reflexivity|].
  cbn [rstrip]. destruct (rstrip dquote s) as [|d kept] eqn:Hs.
  - rewrite char_in_dquote. destruct (Ascii.eqb c dquote_char) eqn:Hc; [reflexivity|].
    now rewrite endswith_dquote_single.
  - now rewrite endswith_dquote_cons.
Qed.

Lemma strip_dquote_no_quote_at_an_end s : quote_at_an_end (strip dquote s) = false.
Proof.
  unfold quote_at_an_end. rewrite strip_dquote_not_starts. simpl.
  apply rstrip_dquote_not_ends.
Qed.

(** What [lstrip] and [rstrip] remove is a run of quotes. *)
Lemma lstrip_dquote_split s : exists n, s = quotes n +:+ lstrip dquote s.
Proof.
  induction s as [|c s [n IH]]; [now exists 0%nat|].
  cbn [lstrip]. rewrite char_in_dquote.
  destruct (Ascii.eqb c dquote_char) eqn:Hc.
  - apply Ascii.eqb_eq in Hc as ->. exists (S n).
    cbn [quotes]. rewrite append_cons. now f_equal.
  - now exists 0%nat.
Qed.

Lemma rstrip_dquote_split s : exists m, s = rstrip dquote s +:+ quotes m.
Proof.
  induction s as [|c s [m IH]]; [now exists 0%nat|].
  cbn [rstrip]. destruct (rstrip dquote s) as [|d kept] eqn:Hs.
  - rewrite char_in_dquote. destruct (Ascii.eqb c dquote_char) eqn:Hc.
    + apply Ascii.eqb_eq in Hc as ->. exists (S m).
      rewrite append_nil in *. now rewrite IH at 1.
    + exists m. rewrite append_cons, append_nil in *. now f_equal.
  - exists m. rewrite append_cons. now f_equal.
Qed.

Lemma strip_dquote_split s :
  exists n m, s = quotes n +:+ strip dquote s +:+ quotes m.
Proof.
  destruct (lstrip_dquote_split s) as [n Hn].
  destruct (rstrip_dquote_split (lstrip dquote s)) as [m Hm].
  exists n, m. unfold strip. now rewrite <- Hm.
Qed.

(** A string with no quote at either end is left alone. *)
Lemma rstrip_dquote_fixed s : endswith s dquote = false -> rstrip dquote s = s.
Proof.
  induction s as [|c s IH]; [reflexivity|].
  destruct s as [|d rest].
  - rewrite endswith_dquote_single. simpl. rewrite orb_false_r. now intros ->.
  - rewrite endswith_dquote_cons. intros Hends.
    change (rstrip dquote (String c (String d rest)))
      with (match rstrip dquote (String d rest) with
            | EmptyString =>
                if char_in c dquote then EmptyString else String c EmptyString
            | k => String c k
            end).
    now rewrite (IH Hends).
Qed.

Lemma strip_dquote_fixed s : quote_at_an_end s = false -> strip dquote s = s.
Proof.
  unfold quote_at_an_end. intros [Hstart Hend]%orb_false_elim.
  unfold strip. destruct s as [|c rest]; [reflexivity|].
  rewrite startswith_dquote, <- char_in_dquote in Hstart.
  rewrite (lstrip_fixed _ _ _ Hstart). now apply rstrip_dquote_fixed.
Qed.

Lemma rstrip_dquote_app_quote s : rstrip dquote (s +:+ dquote) = rstrip dquote s.
Proof.
  induction s as [|c s IH]; [reflexivity|].
  rewrite append_cons. cbn [rstrip]. now rewrite IH.
Qed.

(** Exactly one pair goes when the text inside carries no quote at its ends. *)
Lemma strip_dquote_one_pair inner :
  quote_at_an_end inner = false ->
  strip dquote (dquote +:+ inner +:+ dquote) = inner.
Proof.
  intros Hinner. pose proof (strip_dquote_fixed _ Hinner) as Hfixed.
  unfold strip in *. change (lstrip dquote (dquote +:+ inner +:+ dquote))
    with (lstrip dquote (inner +:+ dquote)).
  destruct inner as [|c rest]; [reflexivity|].
  apply orb_false_elim in Hinner as [Hstart _].
  rewrite startswith_dquote, <- char_in_dquote in Hstart.
  change (String c rest +:+ dquote) with (String c (rest +:+ dquote)).
  rewrite (lstrip_fixed _ _ _ Hstart).
  change (String c (rest +:+ dquote)) with (String c rest +:+ dquote).
  rewrite rstrip_dquote_app_quote.
  now rewrite (lstrip_fixed _ _ _ Hstart) in Hfixed.
Qed.

(** ** clean_attribute *)

Lemma clean_text_strip s : clean_text s = strip dquote s.
Proof. reflexivity. Qed.

Lemma clean_attribute_str s : clean_attribute (PStr s) = PStr (clean_text s).
Proof. reflexivity. Qed.

(** C1, as stated, fails: the word Alpha inside two pairs of quotes is
    wrapped in quotes, and cleaning it yields the bare word, not the word
    inside the one pair that is left. *)
Lemma clean_attribute_doubly_quoted :
  wrapped_in_quotes (quotes 2 +:+ "Alpha" +:+ quotes 2) = true /\
  clean_attribute (PStr (quotes 2 +:+ "Alpha" +:+ quotes 2)) = PStr "Alpha" /\
  slice_1_m1 (quotes 2 +:+ "Alpha" +:+ quotes 2) = dquote +:+ "Alpha" +:+ dquote /\
  ~ removes_exactly_one_pair.
Proof.
  repeat split; try reflexivity.
  intros Hclaim.
  specialize (Hclaim (quotes 2 +:+ "Alpha" +:+ quotes 2) eq_refl).
  vm_compute in Hclaim. discriminate Hclaim.
Qed.

(** C1, amended: a string loses every leading and every trailing quote
    character, which is exactly one pair when the text between the outer
    quotes has no quote at its ends; a string with no quote at either end
    and a value that is not a string come back unchanged. *)
Theorem clean_attribute_strips_surrounding_quotes :
  (forall v, (forall s, v <> PStr s) -> clean_attribute v = v) /\
  (forall s, exists n m core,
      s = quotes n +:+ core +:+ quotes m /\
      quote_at_an_end core = false /\
      clean_attribute (PStr s) = PStr core) /\
  (forall inner, quote_at_an_end inner = false ->
      clean_attribute (PStr (dquote +:+ inner +:+ dquote)) = PStr inner) /\
  (forall s, quote_at_an_end s = false -> clean_attribute (PStr s) = PStr s).
Proof.
  repeat split.
  - intros v Hv. destruct v; try reflexivity. now destruct (Hv s).
  - intros s. destruct (strip_dquote_split s) as (n & m & Hsplit).
    exists n, m, (strip dquote s).
    split; [exact Hsplit|]. split; [apply strip_dquote_no_quote_at_an_end|reflexivity].
  - intros inner Hinner. cbn [clean_attribute]. f_equal.
    now apply strip_dquote_one_pair.
  - intros s Hs. cbn [clean_attribute]. f_equal. now apply strip_dquote_fixed.
Qed.

Lemma clean_attribute_strips_surrounding_quotes_witness :
  (forall s, PInt 7 <> PStr s) /\
  clean_attribute (PInt 7) = PInt 7 /\
  quote_at_an_end "Alpha" = false /\
  clean_attribute (PStr (dquote +:+ "Alpha" +:+ dquote)) = PStr "Alpha" /\
  clean_attribute (PStr "Beta") = PStr "Beta".
Proof.
  destruct clean_attribute_strips_surrounding_quotes as (Hother & _ & Hpair & Hfixed).
  split; [discriminate|].
  split; [apply Hother; discriminate|].
  split; [reflexivity|].
  split; [apply Hpair; reflexivity|apply Hfixed; reflexivity].
Defined.

(** C9: cleaning is idempotent. *)
Theorem clean_attribute_idempotent (v : pyval) :
  clean_attribute (clean_attribute v) = clean_attribute v.
Proof.
  destruct v; try reflexivity.
  cbn [clean_attribute]. f_equal. apply strip_idem.
Qed.

(** ** The node names of parse_dot_file *)

Lemma stripped_name_not_wrapped s :
  startswith (strip dquote s) dquote && endswith (strip dquote s) dquote = false.
Proof. now rewrite strip_dquote_not_starts. Qed.

Lemma node_key_strip node : node_key node = strip dquote (node_get_name node).
Proof. unfold node_key. now rewrite stripped_name_not_wrapped. Qed.

(** C10: once the quotes around a node name are stripped, the test of
    line 51 is false, so the slicing of line 52 never runs and the key is
    the stripped name. *)
Theorem node_key_reslicing_unreachable (node : pydot_node) :
  let node_name := strip dquote (node_get_name node) in
  startswith node_name dquote && endswith node_name dquote = false /\
  node_key node = node_name.
Proof.
  intros node_name. split.
  - apply stripped_name_not_wrapped.
  - apply node_key_strip.
Qed.

(** ** parse_dot_file *)

(** The loop over the nodes of one subgraph. *)
Lemma lookup_foldl_insert (label : string) (nodes : list pydot_node)
    (acc : gmap string string) (key : string) :
  foldl (fun m node => <[node_key node := label]> m) acc nodes !! key =
  if decide (key ∈ node_key <$> nodes) then Some label else acc !! key.
Proof.
  revert acc. induction nodes as [|node nodes IH]; intros acc; [reflexivity|].
  cbn [foldl]. rewrite IH, fmap_cons.
  destruct (decide (key ∈ node_key <$> nodes)) as [Hin|Hnot].
  - rewrite decide_True; [reflexivity|]. apply elem_of_cons. now right.
  - destruct (decide (node_key node = key)) as [<-|Hne].
    + rewrite lookup_insert_eq.
      rewrite decide_True; [reflexivity|]. apply elem_of_cons. now left.
    + rewrite lookup_insert_ne by exact Hne.
      rewrite decide_False; [reflexivity|].
      intros [?|?]%elem_of_cons; congruence.
Qed.

Lemma usable_label_ok cluster_name label :
  usable_label label = true -> exists l, cluster_label_of cluster_name label = Ok l.
Proof.
  unfold cluster_label_of.
  destruct label as [| b | z | s | [|first rest]]; cbn; try discriminate.
  - eauto.
  - destruct b; [discriminate|eauto].
  - destruct (z =? 0)%Z; [eauto|discriminate].
  - destruct (negb (String.eqb s "")); eauto.
  - destruct first as [| b | z | s | l]; cbn.
    + eauto.
    + destruct b; [discriminate|eauto].
    + destruct (z =? 0)%Z; [eauto|discriminate].
    + destruct (negb (String.eqb s "")); eauto.
    + destruct l; [eauto|discriminate].
Qed.

Section ScanFacts.

(** What the loop leaves in the map, for any map it starts from. *)
Lemma scan_subgraphs_sound subs : forall acc clusters key label,
  scan_subgraphs acc subs = Ok clusters ->
  clusters !! key = Some label ->
  acc !! key = Some label \/ direct_entry subs key label.
Proof.
  induction subs as [|sg subs IH]; intros acc clusters key label Hscan Hlook.
  - injection Hscan as <-. now left.
  - cbn [scan_subgraphs] in Hscan.
    destruct (scan_subgraph acc sg) as [acc'|e] eqn:Hsg; [|discriminate].
    cbn in Hscan. destruct (IH _ _ _ _ Hscan Hlook) as [Hacc|Hentry].
    + unfold scan_subgraph in Hsg.
      destruct (startswith (strip dquote (get_name sg)) "cluster_") eqn:Hflag.
      * destruct (cluster_label_of _ (get_label sg)) as [l|e] eqn:Hlabel;
          [|discriminate].
        cbn in Hsg. injection Hsg as <-.
        rewrite lookup_foldl_insert in Hacc.
        destruct (decide (key ∈ node_key <$> get_nodes sg)) as [Hin|_];
          [|now left].
        injection Hacc as ->. right.
        apply list_elem_of_fmap in Hin as (node & Hkey & Hnode).
        exists sg, node. rewrite <- node_key_strip.
        repeat split; auto. apply elem_of_cons. now left.
      * injection Hsg as <-. now left.
    + right. destruct Hentry as (sg' & node & Hin & Hrest).
      exists sg', node. split; [|exact Hrest]. apply elem_of_cons. now right.
Qed.

Lemma scan_subgraph_keeps acc sg clusters key :
  scan_subgraph acc sg = Ok clusters ->
  is_Some (acc !! key) -> is_Some (clusters !! key).
Proof.
  unfold scan_subgraph.
  destruct (startswith (strip dquote (get_name sg)) "cluster_").
  - destruct (cluster_label_of _ (get_label sg)) as [l|e]; [|discriminate].
    cbn. intros [= <-] Hsome. rewrite lookup_foldl_insert.
    now destruct (decide (key ∈ node_key <$> get_nodes sg)).
  - now intros [= <-].
Qed.

Lemma scan_subgraphs_keeps subs : forall acc clusters key,
  scan_subgraphs acc subs = Ok clusters ->
  is_Some (acc !! key) -> is_Some (clusters !! key).
Proof.
  induction subs as [|sg subs IH]; intros acc clusters key Hscan Hsome.
  - now injection Hscan as <-.
  - cbn [scan_subgraphs] in Hscan.
    destruct (scan_subgraph acc sg) as [acc'|e] eqn:Hsg; [|discriminate].
    cbn in Hscan. eapply IH; [exact Hscan|].
    eapply scan_subgraph_keeps; eauto.
Qed.

Lemma scan_subgraphs_complete subs : forall acc clusters key label,
  scan_subgraphs acc subs = Ok clusters ->
  direct_entry subs key label ->
  is_Some (clusters !! key).
Proof.
  induction subs as [|sg subs IH]; intros acc clusters key label Hscan Hentry.
  - destruct Hentry as (? & ? & Hin & _). now apply elem_of_nil in Hin.
  - cbn [scan_subgraphs] in Hscan.
    destruct (scan_subgraph acc sg) as [acc'|e] eqn:Hsg; [|discriminate].
    cbn in Hscan.
    destruct Hentry as (sg' & node & Hin & Hflag & Hnode & -> & Hlabel).
    apply elem_of_cons in Hin as [->|Hin].
    + eapply scan_subgraphs_keeps; [exact Hscan|].
      unfold scan_subgraph in Hsg. unfold is_visual_cluster in Hflag.
      rewrite Hflag, Hlabel in Hsg. cbn in Hsg. injection Hsg as <-.
      rewrite lookup_foldl_insert, decide_True; [eauto|].
      rewrite <- node_key_strip. now apply list_elem_of_fmap_2.
    + eapply IH; [exact Hscan|]. exists sg', node. repeat split; eauto.
Qed.

(** The loop raises only on a label it cannot use. *)
Lemma scan_subgraphs_total subs : forall acc,
  (forall sg, sg ∈ subs -> is_visual_cluster sg = true ->
              usable_label (get_label sg) = true) ->
  exists clusters, scan_subgraphs acc subs = Ok clusters.
Proof.
  induction subs as [|sg subs IH]; intros acc Hlabels; [now eexists|].
  cbn [scan_subgraphs].
  assert (exists acc', scan_subgraph acc sg = Ok acc') as [acc' ->].
  { unfold scan_subgraph.
    destruct (startswith (strip dquote (get_name sg)) "cluster_") eqn:Hflag;
      [|eauto].
    destruct (usable_label_ok (strip dquote (get_name sg)) (get_label sg))
      as [l ->]; [|cbn; eauto].
    apply Hlabels; [|exact Hflag]. apply elem_of_cons. now left. }
  cbn. apply IH. intros sg' Hin. apply Hlabels. apply elem_of_cons. now right.
Qed.

End ScanFacts.

Lemma scan_subgraphs_app before : forall acc after,
  scan_subgraphs acc (before ++ after)%list
  = scan_subgraphs acc before ≫= fun clusters => scan_subgraphs clusters after.
Proof.
  induction before as [|sg before IH]; intros acc after; [reflexivity|].
  cbn [app scan_subgraphs].
  destruct (scan_subgraph acc sg) as [acc'|e]; [|reflexivity].
  cbn. apply IH.
Qed.

Lemma usable_label_raises cluster_name label :
  usable_label label = false ->
  exists e, cluster_label_of cluster_name label = Raise e.
Proof.
  unfold cluster_label_of.
  destruct label as [| b | z | s | [|first rest]]; cbn; try discriminate.
  - destruct b; [eauto|discriminate].
  - destruct (z =? 0)%Z; [discriminate|eauto].
  - eauto.
  - destruct first as [| b | z | s | l]; cbn; try discriminate.
    + destruct b; [eauto|discriminate].
    + destruct (z =? 0)%Z; [discriminate|eauto].
    + destruct l; [discriminate|eauto].
Qed.

(** A group that declares no node under [key] leaves the entry of [key]
    alone. *)
Lemma scan_subgraph_untouched acc sg clusters key :
  scan_subgraph acc sg = Ok clusters ->
  (is_visual_cluster sg = true ->
   forall node, node ∈ get_nodes sg -> strip dquote (node_get_name node) <> key) ->
  clusters !! key = acc !! key.
Proof.
  unfold scan_subgraph, is_visual_cluster.
  destruct (startswith (strip dquote (get_name sg)) "cluster_").
  - destruct (cluster_label_of _ (get_label sg)) as [l|e]; [|discriminate].
    cbn. intros [= <-] Hother. rewrite lookup_foldl_insert.
    rewrite decide_False; [reflexivity|].
    intros (node & Hkey & Hnode)%list_elem_of_fmap.
    apply (Hother eq_refl node Hnode). now rewrite <- node_key_strip.
  - now intros [= <-].
Qed.

Lemma scan_subgraphs_untouched subs : forall acc clusters key,
  scan_subgraphs acc subs = Ok clusters ->
  (forall sg, sg ∈ subs -> is_visual_cluster sg = true ->
     forall node, node ∈ get_nodes sg -> strip dquote (node_get_name node) <> key) ->
  clusters !! key = acc !! key.
Proof.
  induction subs as [|sg subs IH]; intros acc clusters key Hscan Hother.
  - now injection Hscan as <-.
  - cbn [scan_subgraphs] in Hscan.
    destruct (scan_subgraph acc sg) as [acc'|e] eqn:Hsg; [|discriminate].
    cbn in Hscan. rewrite (IH _ _ _ Hscan).
    + eapply scan_subgraph_untouched; [exact Hsg|].
      apply Hother, elem_of_cons. now left.
    + intros sg' Hin. apply Hother, elem_of_cons. now right.
Qed.

Lemma scan_subgraphs_ok_usable subs : forall acc clusters,
  scan_subgraphs acc subs = Ok clusters ->
  forall sg, sg ∈ subs -> is_visual_cluster sg = true ->
             usable_label (get_label sg) = true.
Proof.
  induction subs as [|sg subs IH]; intros acc clusters Hscan sg' Hin Hflag.
  - now apply elem_of_nil in Hin.
  - cbn [scan_subgraphs] in Hscan.
    destruct (scan_subgraph acc sg) as [acc'|e] eqn:Hsg; [|discriminate].
    cbn in Hscan. apply elem_of_cons in Hin as [->|Hin].
    + destruct (usable_label (get_label sg)) eqn:Husable; [reflexivity|].
      destruct (usable_label_raises (strip dquote (get_name sg)) _ Husable) as [e He].
      unfold scan_subgraph in Hsg. unfold is_visual_cluster in Hflag.
      rewrite Hflag, He in Hsg. discriminate Hsg.
    + eapply IH; eauto.
Qed.

Lemma scan_last_declaration before sg after node clusters :
  scan_subgraphs ∅ (before ++ sg :: after) = Ok clusters ->
  is_visual_cluster sg = true ->
  node ∈ get_nodes sg ->
  (forall later, later ∈ after -> is_visual_cluster later = true ->
     forall other, other ∈ get_nodes later ->
       strip dquote (node_get_name other) <> strip dquote (node_get_name node)) ->
  exists label,
    cluster_label_of (strip dquote (get_name sg)) (get_label sg) = Ok label /\
    clusters !! strip dquote (node_get_name node) = Some label.
Proof.
  rewrite scan_subgraphs_app. intros Hscan Hflag Hnode Hlater.
  destruct (scan_subgraphs ∅ before) as [acc|e]; [|discriminate].
  cbn in Hscan. cbn [scan_subgraphs] in Hscan.
  destruct (scan_subgraph acc sg) as [acc'|e] eqn:Hsg; [|discriminate].
  cbn in Hscan. rewrite (scan_subgraphs_untouched _ _ _ _ Hscan Hlater).
  unfold scan_subgraph in Hsg. unfold is_visual_cluster in Hflag.
  rewrite Hflag in Hsg.
  destruct (cluster_label_of _ (get_label sg)) as [label|e]; [|discriminate].
  cbn in Hsg. injection Hsg as <-. exists label. split; [reflexivity|].
  rewrite lookup_foldl_insert, decide_True; [reflexivity|].
  rewrite <- node_key_strip. now apply list_elem_of_fmap_2.
Qed.

Lemma cluster_label_of_absent cluster_name :
  cluster_label_of cluster_name PNone = Ok cluster_name.
Proof. reflexivity. Qed.

Lemma cluster_label_of_string cluster_name s :
  s <> "" -> cluster_label_of cluster_name (PStr s) = Ok (strip dquote s).
Proof.
  intros Hs. unfold cluster_label_of. cbn.
  destruct (String.eqb_spec s ""); [contradiction|reflexivity].
Qed.

Lemma cluster_label_of_false cluster_name v :
  (forall l, v <> PList l) -> truthy v = false ->
  cluster_label_of cluster_name v = Ok cluster_name.
Proof.
  intros Hlist Hfalse. unfold cluster_label_of.
  destruct v as [| b | z | s | l]; [reflexivity| | | |now destruct (Hlist l)];
    cbn [mbind result_bind]; now rewrite Hfalse.
Qed.

Lemma cluster_label_of_list_false cluster_name first rest :
  truthy first = false ->
  cluster_label_of cluster_name (PList (first :: rest)) = Ok cluster_name.
Proof. intros Hfalse. unfold cluster_label_of. cbn. now rewrite Hfalse. Qed.

Lemma cluster_label_of_list_string cluster_name s rest :
  s <> "" ->
  cluster_label_of cluster_name (PList (PStr s :: rest)) = Ok (strip dquote s).
Proof.
  intros Hs. unfold cluster_label_of. cbn.
  destruct (String.eqb_spec s ""); [contradiction|reflexivity].
Qed.

Lemma usable_label_iff cluster_name label :
  usable_label label = true <->
  exists l, cluster_label_of cluster_name label = Ok l.
Proof.
  split; [apply usable_label_ok|].
  intros [l Hl]. destruct (usable_label label) eqn:Husable; [reflexivity|].
  destruct (usable_label_raises cluster_name _ Husable) as [e He]. congruence.
Qed.

Lemma cluster_label_of_true_other cluster_name v :
  truthy v = true -> (forall s, v <> PStr s) -> (forall l, v <> PList l) ->
  cluster_label_of cluster_name v = Raise AttributeError.
Proof.
  intros Htrue Hstr Hlist. unfold cluster_label_of.
  destruct v as [| b | z | s | l];
    [discriminate Htrue| | |now destruct (Hstr s)|now destruct (Hlist l)];
    cbn [mbind result_bind]; now rewrite Htrue.
Qed.

Lemma cluster_label_of_list_true_other cluster_name first rest :
  truthy first = true -> (forall s, first <> PStr s) ->
  cluster_label_of cluster_name (PList (first :: rest)) = Raise AttributeError.
Proof.
  intros Htrue Hstr. unfold cluster_label_of. cbn [mbind result_bind].
  rewrite Htrue. destruct first as [| b | z | s | l]; try reflexivity.
  now destruct (Hstr s).
Qed.

Lemma unusable_label_found (subs : list pydot_subgraph) :
  (forall sg, sg ∈ subs -> is_visual_cluster sg = true ->
              usable_label (get_label sg) = true) \/
  (exists sg, sg ∈ subs /\ is_visual_cluster sg = true /\
              usable_label (get_label sg) = false).
Proof.
  induction subs as [|sg subs [IH|(bad & Hin & Hflag & Hbad)]].
  - left. intros sg Hin. now apply elem_of_nil in Hin.
  - destruct (is_visual_cluster sg) eqn:Hflag.
    + destruct (usable_label (get_label sg)) eqn:Husable.
      * left. intros sg' Hin Hflag'. apply elem_of_cons in Hin as [->|Hin]; auto.
      * right. exists sg. split; [apply list_elem_of_here|auto].
    + left. intros sg' Hin Hflag'. apply elem_of_cons in Hin as [->|Hin]; auto.
      congruence.
  - right. exists bad. split; [now apply list_elem_of_further|auto].
Qed.

Lemma parse_dot_file_raises_iff g :
  (exists e, parse_dot_file g = Raise e) <->
  (exists sg, sg ∈ graph_get_subgraphs g /\ is_visual_cluster sg = true /\
              usable_label (get_label sg) = false).
Proof.
  unfold parse_dot_file. split.
  - intros [e He].
    destruct (unusable_label_found (graph_get_subgraphs g)) as [Hall|Hbad];
      [|exact Hbad].
    destruct (scan_subgraphs_total _ ∅ Hall) as [clusters Hok]. congruence.
  - intros (sg & Hin & Hflag & Hbad).
    destruct (scan_subgraphs ∅ (graph_get_subgraphs g)) as [clusters|e] eqn:Hscan;
      [|eauto].
    pose proof (scan_subgraphs_ok_usable _ _ _ Hscan sg Hin Hflag). congruence.
Qed.

(** C3, as stated, fails: a cluster that sits inside a structural group is
    never visited, so its node gets no entry. *)
Lemma parse_dot_file_skips_nested_clusters :
  parse_dot_file nested_cluster_graph = Ok ∅ /\
  ~ maps_nested_nodes_at_any_depth nested_cluster_graph.
Proof.
  split; [reflexivity|]. intros Hclaim.
  destruct (Hclaim (Subgraph "cluster_inner" (PStr "Inner") [Node "x"] []) (Node "x"))
    as (clusters & label & Hparse & _ & Hlook).
  - eapply within_below; [apply list_elem_of_here|].
    apply within_here. apply list_elem_of_here.
  - reflexivity.
  - apply nested_direct. apply list_elem_of_here.
  - injection Hparse as <-. rewrite lookup_empty in Hlook. discriminate Hlook.
Qed.

(** C3, amended: the scan is one pass over the top-level subgraphs, in
    order, and visits nothing below them. It succeeds exactly when every
    flagged one carries a usable label, and raises otherwise. Every entry
    of the map is a node declared directly in a flagged top-level
    subgraph, under its stripped name, and every such node has an entry:
    the display label of the last flagged subgraph that declares it. The
    display label is the stripped label when the label is a non-empty
    string or a list that starts with one, and the stripped name of the
    subgraph when the label is absent or another false value that is not
    a list, or a list that starts with a false value. No other label is
    usable: an empty list gives an [IndexError], a true value that is not
    a string an [AttributeError], also as the first element of a list;
    and the scan raises exactly when a flagged top-level subgraph carries
    such a label. *)
Theorem parse_dot_file_scans_top_level (g : pydot_graph) :
  ((exists clusters, parse_dot_file g = Ok clusters) <->
   (forall sg, sg ∈ graph_get_subgraphs g -> is_visual_cluster sg = true ->
               usable_label (get_label sg) = true)) /\
  (forall clusters, parse_dot_file g = Ok clusters ->
     (forall key label,
         clusters !! key = Some label ->
         direct_entry (graph_get_subgraphs g) key label) /\
     (forall key label,
         direct_entry (graph_get_subgraphs g) key label ->
         is_Some (clusters !! key)) /\
     (forall before sg after node,
         graph_get_subgraphs g = (before ++ sg :: after)%list ->
         is_visual_cluster sg = true ->
         node ∈ get_nodes sg ->
         (forall later, later ∈ after -> is_visual_cluster later = true ->
            forall other, other ∈ get_nodes later ->
              strip dquote (node_get_name other) <> strip dquote (node_get_name node)) ->
         exists label,
           cluster_label_of (strip dquote (get_name sg)) (get_label sg) = Ok label /\
           clusters !! strip dquote (node_get_name node) = Some label)) /\
  (forall cluster_name label,
      usable_label label = true <->
      exists l, cluster_label_of cluster_name label = Ok l) /\
  (forall cluster_name s,
      s <> "" -> cluster_label_of cluster_name (PStr s) = Ok (strip dquote s)) /\
  (forall cluster_name s rest,
      s <> "" ->
      cluster_label_of cluster_name (PList (PStr s :: rest)) = Ok (strip dquote s)) /\
  (forall cluster_name v,
      (forall l, v <> PList l) -> truthy v = false ->
      cluster_label_of cluster_name v = Ok cluster_name) /\
  (forall cluster_name first rest,
      truthy first = false ->
      cluster_label_of cluster_name (PList (first :: rest)) = Ok cluster_name) /\
  (forall cluster_name, cluster_label_of cluster_name (PList []) = Raise IndexError) /\
  (forall cluster_name v,
      truthy v = true -> (forall s, v <> PStr s) -> (forall l, v <> PList l) ->
      cluster_label_of cluster_name v = Raise AttributeError) /\
  (forall cluster_name first rest,
      truthy first = true -> (forall s, first <> PStr s) ->
      cluster_label_of cluster_name (PList (first :: rest)) = Raise AttributeError) /\
  ((exists e, parse_dot_file g = Raise e) <->
   (exists sg, sg ∈ graph_get_subgraphs g /\ is_visual_cluster sg = true /\
               usable_label (get_label sg) = false)).
Proof.
  split; [|split; [|split; [|split; [|split; [|split; [|split; [|split;
    [|split; [|split]]]]]]]]].
  - split; [|apply scan_subgraphs_total].
    intros [clusters Hscan]. exact (scan_subgraphs_ok_usable _ _ _ Hscan).
  - intros clusters Hscan. split; [|split].
    + intros key label Hlook.
      destruct (scan_subgraphs_sound _ _ _ _ _ Hscan Hlook) as [Hempty|Hentry];
        [|exact Hentry].
      rewrite lookup_empty in Hempty. discriminate Hempty.
    + intros key label. apply (scan_subgraphs_complete _ _ _ _ _ Hscan).
    + intros before sg after node Hsubs. unfold parse_dot_file in Hscan.
      rewrite Hsubs in Hscan.
      exact (scan_last_declaration before sg after node clusters Hscan).
  - apply usable_label_iff.
  - apply cluster_label_of_string.
  - apply cluster_label_of_list_string.
  - apply cluster_label_of_false.
  - apply cluster_label_of_list_false.
  - reflexivity.
  - apply cluster_label_of_true_other.
  - apply cluster_label_of_list_true_other.
  - apply parse_dot_file_raises_iff.
Qed.

Example parse_dot_file_flat :
  parse_dot_file flat_cluster_graph =
  Ok (<["d" := "cluster_1"]> (<["b c" := "Core"]> (<["a" := "Core"]> ∅))).
Proof. reflexivity. Qed.

Lemma parse_dot_file_scans_top_level_witness :
  (forall sg, sg ∈ graph_get_subgraphs flat_cluster_graph ->
              is_visual_cluster sg = true -> usable_label (get_label sg) = true) /\
  (exists clusters,
    parse_dot_file flat_cluster_graph = Ok clusters /\
    clusters !! "b c" = Some "Core" /\
    clusters !! "d" = Some "cluster_1" /\
    clusters !! "e" = None) /\
  (exists label,
    cluster_label_of "cluster_1" PNone = Ok label /\
    (<["d" := "cluster_1"]> (<["b c" := "Core"]> (<["a" := "Core"]> ∅))
       : gmap string string) !! "d" = Some label).
Proof.
  assert (Hlabels : forall sg, sg ∈ graph_get_subgraphs flat_cluster_graph ->
            is_visual_cluster sg = true -> usable_label (get_label sg) = true).
  { intros sg Hin _. cbn in Hin.
    repeat (apply elem_of_cons in Hin as [->|Hin]; [reflexivity|]).
    now apply elem_of_nil in Hin. }
  split; [exact Hlabels|]. split.
  - destruct (proj2 (proj1 (parse_dot_file_scans_top_level flat_cluster_graph)) Hlabels)
      as [clusters Hparse].
    exists clusters. split; [exact Hparse|].
    rewrite parse_dot_file_flat in Hparse. injection Hparse as <-.
    repeat split; reflexivity.
  - apply (proj2 (proj2 (proj1 (proj2 (parse_dot_file_scans_top_level
             flat_cluster_graph)) _ parse_dot_file_flat))
             [Subgraph "cluster_0" (PStr (dquote +:+ "Core" +:+ dquote))
                [Node "a"; Node (dquote +:+ "b c" +:+ dquote)] []]
             (Subgraph "cluster_1" PNone [Node "d"] [])
             [Subgraph "legend" (PStr "Legend") [Node "e"] []]
             (Node "d") eq_refl eq_refl).
    + apply list_elem_of_here.
    + intros later Hin Hflag.
      apply elem_of_cons in Hin as [->|Hin]; [discriminate Hflag|].
      now apply elem_of_nil in Hin.
Defined.

(** ** generate_unique_colors and generate_group_styles *)

Example format_06x_samples :
  map format_06x [2748; 0; 16777215; 19088743; -255]%Z
  = ["000abc"; "000000"; "ffffff"; "1234567"; "-000ff"].
Proof. reflexivity. Qed.

Section ColorizerFacts.
Context `{Rng : PyRandom}.

(** The colours do not depend on the state of the generator before the
    call: line 105 reseeds it. *)
Lemma generate_unique_colors_reseeds n st1 st2 :
  generate_unique_colors n st1 = generate_unique_colors n st2.
Proof. reflexivity. Qed.

Lemma draw_colors_length n : forall st, length (fst (draw_colors n st)) = n.
Proof.
  induction n as [|n IH]; intros st; [reflexivity|].
  cbn [draw_colors]. destruct (rng_randint 0 16777215 st) as [r st1].
  specialize (IH st1). destruct (draw_colors n st1) as [colors st2].
  cbn in *. now rewrite IH.
Qed.

Lemma foldl_insert_style_other clusters : forall colors acc c,
  c ∉ clusters ->
  foldl insert_style acc (zip clusters colors) !! c = acc !! c.
Proof.
  induction clusters as [|k clusters IH]; intros colors acc c Hc; [reflexivity|].
  destruct colors as [|color colors]; [reflexivity|].
  apply not_elem_of_cons in Hc as [Hne Hc].
  cbn [zip zip_with foldl]. rewrite IH by exact Hc.
  cbn. now rewrite lookup_insert_ne.
Qed.

(** Each label receives the colour found at its own position in the
    iteration order. *)
Lemma foldl_insert_style_at clusters : forall colors acc i c color,
  NoDup clusters ->
  clusters !! i = Some c -> colors !! i = Some color ->
  foldl insert_style acc (zip clusters colors) !! c
  = Some (GroupStyle color "#2B7CE9").
Proof.
  induction clusters as [|k clusters IH];
    intros colors acc i c color Hnodup Hc Hcolor; [discriminate|].
  destruct colors as [|color0 colors]; [destruct i; discriminate|].
  apply NoDup_cons in Hnodup as [Hk Hnodup].
  cbn [zip zip_with foldl]. destruct i as [|i].
  - injection Hc as ->. injection Hcolor as ->.
    rewrite foldl_insert_style_other by exact Hk.
    cbn. apply lookup_insert_eq.
  - eapply IH; eauto.
Qed.

Lemma group_styles_in_order_lookup unique_clusters st i c color :
  NoDup unique_clusters ->
  unique_clusters !! i = Some c ->
  fst (generate_unique_colors (length unique_clusters) st) !! i = Some color ->
  fst (group_styles_in_order unique_clusters st) !! c
  = Some (GroupStyle color "#2B7CE9").
Proof.
  intros Hnodup Hc Hcolor. unfold group_styles_in_order.
  destruct (generate_unique_colors (length unique_clusters) st) as [colors st'].
  cbn [fst] in *.
  exact (foldl_insert_style_at _ _ _ _ _ _ Hnodup Hc Hcolor).
Qed.

(** Two runs that iterate the set in the same order return the same
    table, whatever the generator held. *)
Lemma group_styles_in_order_reproducible unique_clusters st1 st2 :
  fst (group_styles_in_order unique_clusters st1)
  = fst (group_styles_in_order unique_clusters st2).
Proof. reflexivity. Qed.

End ColorizerFacts.

Lemma two_clusters_values c :
  (exists node, two_clusters !! node = Some c) <-> c = "A" \/ c = "B".
Proof.
  unfold two_clusters. split.
  - intros [node Hnode].
    apply lookup_insert_Some in Hnode as [[_ <-]|[_ Hnode]]; [now right|].
    apply lookup_insert_Some in Hnode as [[_ <-]|[_ Hnode]]; [now left|].
    rewrite lookup_empty in Hnode. discriminate Hnode.
  - intros [->| ->]; [now exists "n1"|now exists "n2"].
Qed.

Lemma two_clusters_orders :
  iterates_set_of_values two_clusters ["A"; "B"] /\
  iterates_set_of_values two_clusters ["B"; "A"].
Proof.
  split; (split; [compute_done|]);
    intros c; rewrite two_clusters_values, !elem_of_cons, elem_of_nil; tauto.
Qed.

(** C2, at a failing input: over the one cluster map with the labels A and
    B, whatever the generator held before, one run that iterates the set
    as A, B and one that iterates it as B, A draw the same two colours
    and hand them to the labels the other way round, so the two tables
    differ. *)
Theorem generate_group_styles_follows_set_order (st1 st2 : MT19937.state) :
  exists run1 run2 : gmap string group_style,
    generate_group_styles two_clusters st1 run1 /\
    generate_group_styles two_clusters st2 run2 /\
    run1 !! "A" = Some (GroupStyle "#390062" "#2B7CE9") /\
    run1 !! "B" = Some (GroupStyle "#0cce35" "#2B7CE9") /\
    run2 !! "A" = Some (GroupStyle "#0cce35" "#2B7CE9") /\
    run2 !! "B" = Some (GroupStyle "#390062" "#2B7CE9") /\
    run1 <> run2 /\
    ~ same_table_in_every_run two_clusters.
Proof.
  destruct two_clusters_orders as [Hab Hba].
  exists (fst (group_styles_in_order (Rng := mt19937_random) ["A"; "B"] st1)),
         (fst (group_styles_in_order (Rng := mt19937_random) ["B"; "A"] st2)).
  split; [exists ["A"; "B"]; now split|].
  split; [exists ["B"; "A"]; now split|].
  assert (Hcolors : forall st, fst (generate_unique_colors (Rng := mt19937_random) 2 st)
                               = ["#390062"; "#0cce35"]).
  { intros st. vm_compute. reflexivity. }
  assert (Ha1 : fst (group_styles_in_order (Rng := mt19937_random) ["A"; "B"] st1) !! "A"
                = Some (GroupStyle "#390062" "#2B7CE9")).
  { apply (group_styles_in_order_lookup _ _ 0 "A"); [apply (proj1 Hab)|reflexivity|].
    cbn [length]. now rewrite Hcolors. }
  assert (Ha2 : fst (group_styles_in_order (Rng := mt19937_random) ["B"; "A"] st2) !! "A"
                = Some (GroupStyle "#0cce35" "#2B7CE9")).
  { apply (group_styles_in_order_lookup _ _ 1 "A"); [apply (proj1 Hba)|reflexivity|].
    cbn [length]. now rewrite Hcolors. }
  split; [exact Ha1|].
  split.
  { apply (group_styles_in_order_lookup _ _ 1 "B"); [apply (proj1 Hab)|reflexivity|].
    cbn [length]. now rewrite Hcolors. }
  split; [exact Ha2|].
  split.
  { apply (group_styles_in_order_lookup _ _ 0 "B"); [apply (proj1 Hba)|reflexivity|].
    cbn [length]. now rewrite Hcolors. }
  assert (Hdiff : fst (group_styles_in_order (Rng := mt19937_random) ["A"; "B"] st1)
                  <> fst (group_styles_in_order (Rng := mt19937_random) ["B"; "A"] st2)).
  { intros Heq. rewrite Heq, Ha2 in Ha1. discriminate Ha1. }
  split; [exact Hdiff|].
  intros Hsame. apply Hdiff.
  apply (Hsame st1 st2); [exists ["A"; "B"]|exists ["B"; "A"]]; now split.
Qed.

(** ** create_interactive_graph: nodes *)

Example float_of_str_samples :
  map DecFloat.of_str ["1.0"; " 2.50 "; "1e3"; "1_000.5"; "-inf"; "nAn"]
  = [Some (DecFloat.Fin false 1 0); Some (DecFloat.Fin false 25 (-1));
     Some (DecFloat.Fin false 1 3); Some (DecFloat.Fin false 10005 (-1));
     Some (DecFloat.Inf true); Some DecFloat.NaN] /\
  map DecFloat.of_str ["bogus"; ""; "."; "1__0"; "_1"; "1e"; "0x10"; "- 1"]
  = [None; None; None; None; None; None; None; None] /\
  map (font_size (Flt := dec_float)) ["14"; "14.9"; "-3.7"; "nan"; "x"; "inf"]
  = [Ok 14; Ok 14; Ok (-3); Ok 14; Ok 14; Raise OverflowError]%Z.
Proof. repeat split; reflexivity. Qed.

Section NodeFacts.
Context `{Flt : PyFloat}.

(** A node that is built carries the fields computed on lines 133-151. *)
Lemma build_node_fields clusters node data vn :
  build_node clusters node data = Ok vn ->
  vn_id vn = node /\
  vn_label vn = strip "<>" (clean_text (get data "label" node)) /\
  vn_title vn = clean_text (get data "tooltip" "") /\
  vn_url vn = clean_text (get data "URL" "") /\
  vn_color vn = node_color data /\
  vn_shape vn = node_shape data /\
  vn_font_face vn = clean_text (get data "fontname" "Helvetica") /\
  font_size (clean_text (get data "fontsize" "14")) = Ok (vn_font_size vn) /\
  vn_group vn = default "default" (clusters !! node).
Proof.
  unfold build_node.
  destruct (font_size (clean_text (get data "fontsize" "14"))) as [size|e];
    [|discriminate].
  cbn. intros [= <-]. cbn. repeat split; reflexivity.
Qed.

(** The node is built whenever the font size converts. *)
Lemma build_node_total clusters node data size :
  font_size (clean_text (get data "fontsize" "14")) = Ok size ->
  exists vn, build_node clusters node data = Ok vn.
Proof. intros Hsize. unfold build_node. rewrite Hsize. cbn. eauto. Qed.

(** Every attribute read with [clean_attribute] reaches the node cleaned. *)
Lemma build_node_cleaned_attributes clusters node data vn :
  build_node clusters node data = Ok vn ->
  (forall v, data !! "tooltip" = Some v ->
             PStr (vn_title vn) = clean_attribute (PStr v)) /\
  (forall v, data !! "URL" = Some v ->
             PStr (vn_url vn) = clean_attribute (PStr v)) /\
  (forall v, data !! "fillcolor" = Some v ->
             PStr (vn_color vn) = clean_attribute (PStr v)) /\
  (forall v, data !! "fontname" = Some v ->
             PStr (vn_font_face vn) = clean_attribute (PStr v)).
Proof.
  intros (_ & _ & Htitle & Hurl & Hcolor & _ & Hfont & _)%build_node_fields.
  rewrite Htitle, Hurl, Hcolor, Hfont. unfold node_color, get.
  repeat split; intros v Hv; rewrite Hv; reflexivity.
Qed.

(** C8: the shape is [box] when the attribute is literally [box] and
    [ellipse] in every other case, absence included. *)
Theorem node_shape_box_or_ellipse clusters node data vn :
  build_node clusters node data = Ok vn ->
  (data !! "shape" = Some "box" -> vn_shape vn = "box") /\
  (data !! "shape" <> Some "box" -> vn_shape vn = "ellipse") /\
  (vn_shape vn = "box" \/ vn_shape vn = "ellipse").
Proof.
  intros (_ & _ & _ & _ & _ & Hshape & _)%build_node_fields.
  rewrite Hshape. unfold node_shape.
  destruct (decide (data !! "shape" = Some "box")) as [Hbox|Hother].
  - split; [reflexivity|]. split; [contradiction|now left].
  - split; [contradiction|]. split; [reflexivity|now right].
Qed.

(** C5: the fill colour is the cleaned value of [fillcolor] whenever
    the attribute is present, whatever its value, and the default
    exactly in its absence. A value that carries no quote at its ends is
    its own cleaning. *)
Theorem node_fill_color_by_presence clusters node data vn :
  build_node clusters node data = Ok vn ->
  (forall v, data !! "fillcolor" = Some v ->
             vn_color vn = clean_text v /\
             (quote_at_an_end v = false -> vn_color vn = v)) /\
  (data !! "fillcolor" = None -> vn_color vn = "#97C2FC").
Proof.
  intros (_ & _ & _ & _ & Hcolor & _)%build_node_fields.
  rewrite Hcolor. unfold node_color, get. split.
  - intros v Hv. rewrite Hv. cbn [default].
    rewrite decide_True by eauto. split; [reflexivity|].
    intros Hplain. rewrite clean_text_strip. now apply strip_dquote_fixed.
  - intros Habsent. rewrite Habsent. rewrite decide_False; [reflexivity|].
    now intros [? ?].
Qed.

(** The nodes and edges of the scene are those of the graph, each
    built on its own and in order. *)
Lemma add_nodes_each clusters nodes : forall built,
  add_nodes clusters nodes = Ok built ->
  Forall2 (fun entry vn => build_node clusters (fst entry) (snd entry) = Ok vn)
          nodes built.
Proof.
  induction nodes as [|[node data] nodes IH]; intros built Hbuilt.
  - injection Hbuilt as <-. constructor.
  - cbn [add_nodes] in Hbuilt.
    destruct (build_node clusters node data) as [vn|e] eqn:Hvn; [|discriminate].
    cbn in Hbuilt.
    destruct (add_nodes clusters nodes) as [vns|e]; [|discriminate].
    cbn in Hbuilt. injection Hbuilt as <-.
    constructor; [exact Hvn|]. now apply IH.
Qed.

Lemma create_interactive_graph_elements g clusters nodes edges :
  create_interactive_graph g clusters = Ok (nodes, edges) ->
  Forall2 (fun entry vn => build_node clusters (fst entry) (snd entry) = Ok vn)
          (nx_nodes g) nodes /\
  edges = map (fun '(source, target, data) => build_edge source target data)
              (nx_edges g).
Proof.
  unfold create_interactive_graph.
  destruct (add_nodes clusters (nx_nodes g)) as [built|e] eqn:Hbuilt;
    [|discriminate].
  cbn. intros [= <- <-]. split; [now apply add_nodes_each|reflexivity].
Qed.

End NodeFacts.

Lemma node_shape_box_or_ellipse_witness :
  build_node (Flt := dec_float) ∅ "n" (<["shape" := "circle"]> ∅)
  = Ok (VisNode "n" "n" "" "" "#97C2FC" "ellipse" "Helvetica" 14 "default") /\
  (<["shape" := "circle"]> ∅ : gmap string string) !! "shape" <> Some "box" /\
  vn_shape (VisNode "n" "n" "" "" "#97C2FC" "ellipse" "Helvetica" 14 "default")
  = "ellipse".
Proof.
  assert (Hbuilt : build_node (Flt := dec_float) ∅ "n" (<["shape" := "circle"]> ∅)
            = Ok (VisNode "n" "n" "" "" "#97C2FC" "ellipse" "Helvetica" 14 "default"))
    by reflexivity.
  assert (Hshape : (<["shape" := "circle"]> ∅ : gmap string string) !! "shape"
                   <> Some "box") by discriminate.
  split; [exact Hbuilt|]. split; [exact Hshape|].
  exact (proj1 (proj2 (node_shape_box_or_ellipse _ _ _ _ Hbuilt)) Hshape).
Defined.

Lemma node_fill_color_by_presence_witness :
  build_node (Flt := dec_float) ∅ "n" empty_fill_node
  = Ok (VisNode "n" "n" "" "" "" "ellipse" "Helvetica" 14 "default") /\
  empty_fill_node !! "fillcolor" = Some "" /\
  vn_color (VisNode "n" "n" "" "" "" "ellipse" "Helvetica" 14 "default") = "".
Proof.
  assert (Hbuilt : build_node (Flt := dec_float) ∅ "n" empty_fill_node
            = Ok (VisNode "n" "n" "" "" "" "ellipse" "Helvetica" 14 "default"))
    by reflexivity.
  assert (Hpresent : empty_fill_node !! "fillcolor" = Some "") by reflexivity.
  split; [exact Hbuilt|]. split; [exact Hpresent|].
  exact (proj2 (proj1 (node_fill_color_by_presence _ _ _ _ Hbuilt) _ Hpresent)
               eq_refl).
Defined.

(** C4, at a failing input: a shape written with quotes is cleaned to
    [box] by [clean_attribute], yet line 137 compares the raw value, so
    the node is drawn as an ellipse. *)
Theorem shape_attribute_read_uncleaned :
  quoted_box_node !! "shape" = Some (dquote +:+ "box" +:+ dquote) /\
  clean_attribute (PStr (dquote +:+ "box" +:+ dquote)) = PStr "box" /\
  build_node (Flt := dec_float) ∅ "n" quoted_box_node
  = Ok (VisNode "n" "n" "" "" "#97C2FC" "ellipse" "Helvetica" 14 "default").
Proof. repeat split; reflexivity. Qed.

(** ** create_interactive_graph: edges *)

Section EdgeFacts.
Context `{Flt : PyFloat}.

(** Every attribute handed to [add_edge] is the cleaned one. *)
Lemma build_edge_cleaned_attributes source target data :
  (forall v, data !! "tooltip" = Some v ->
     PStr (ve_title (build_edge source target data)) = clean_attribute (PStr v)) /\
  (forall v, data !! "color" = Some v ->
     PStr (ve_color (build_edge source target data)) = clean_attribute (PStr v)) /\
  (forall v, data !! "arrowhead" = Some v ->
     PStr (ve_arrows (build_edge source target data)) = clean_attribute (PStr v)) /\
  (forall v, data !! "style" = Some v ->
     ve_dashes (build_edge source target data)
     = String.eqb (clean_text v) "dashed").
Proof.
  unfold build_edge, get. cbn [ve_title ve_color ve_arrows ve_dashes].
  repeat split; intros v Hv; rewrite Hv; cbn [from_option id]; try reflexivity.
  destruct (String.eqb (clean_text v) "dashed"); reflexivity.
Qed.

(** C7: the width is the pen width, cleaned and parsed, when it parses;
    it is 1.0 when the attribute is absent or its text is not a number.
    No case raises: [build_edge] is a total function. *)
Theorem edge_width_parsed_or_default source target data :
  (data !! "penwidth" = None ->
     ve_width (build_edge source target data) = float_1_0) /\
  (forall v width, data !! "penwidth" = Some v ->
     float_of_str (clean_text v) = Some width ->
     ve_width (build_edge source target data) = width) /\
  (forall v, data !! "penwidth" = Some v ->
     float_of_str (clean_text v) = None ->
     ve_width (build_edge source target data) = float_1_0).
Proof.
  unfold build_edge, edge_width, get. cbn [ve_width].
  repeat split.
  - intros ->. cbn [from_option].
    change (clean_text "1.0") with "1.0". now rewrite float_of_str_1_0.
  - intros v width -> Hparse. cbn [from_option id]. now rewrite Hparse.
  - intros v -> Hparse. cbn [from_option id]. now rewrite Hparse.
Qed.

End EdgeFacts.

Lemma edge_width_parsed_or_default_witness :
  bogus_width_edge !! "penwidth" = Some "bogus" /\
  float_of_str (PyFloat := dec_float) (clean_text "bogus") = None /\
  ve_width (build_edge (Flt := dec_float) "a" "b" bogus_width_edge)
  = DecFloat.Fin false 1 0 /\
  (<["penwidth" := dquote +:+ "2.5" +:+ dquote]> ∅ : gmap string string) !! "penwidth"
  = Some (dquote +:+ "2.5" +:+ dquote) /\
  ve_width (build_edge (Flt := dec_float) "a" "b"
              (<["penwidth" := dquote +:+ "2.5" +:+ dquote]> ∅))
  = DecFloat.Fin false 25 (-1) /\
  ve_width (build_edge (Flt := dec_float) "a" "b" ∅) = DecFloat.Fin false 1 0.
Proof.
  split; [reflexivity|]. split; [reflexivity|].
  split.
  { exact (proj2 (proj2 (edge_width_parsed_or_default (Flt := dec_float)
                           "a" "b" bogus_width_edge))
                 "bogus" eq_refl eq_refl). }
  split; [reflexivity|].
  split.
  { exact (proj1 (proj2 (edge_width_parsed_or_default (Flt := dec_float) "a" "b"
                           (<["penwidth" := dquote +:+ "2.5" +:+ dquote]> ∅)))
                 (dquote +:+ "2.5" +:+ dquote) (DecFloat.Fin false 25 (-1))
                 eq_refl eq_refl). }
  exact (proj1 (edge_width_parsed_or_default (Flt := dec_float) "a" "b" ∅) eq_refl).
Defined.

(** ** inject_custom_js *)

Lemma take_drop n : forall s, take n s +:+ drop n s = s.
Proof.
  induction n as [|n IH]; intros [|c s]; try reflexivity.
  cbn [take drop]. rewrite append_cons. now rewrite IH.
Qed.

Lemma occurs_at_nil sub i : occurs_at sub "" i <-> i = 0%nat /\ sub = "".
Proof.
  unfold occurs_at. split.
  - intros [Hle Hpre]. cbn in Hle. assert (i = 0%nat) as -> by lia.
    split; [reflexivity|]. now destruct sub.
  - intros [-> ->]. split; [cbn; lia|reflexivity].
Qed.

Lemma occurs_at_succ sub c s i :
  occurs_at sub (String c s) (S i) <-> occurs_at sub s i.
Proof. unfold occurs_at. cbn [String.length drop]. intuition lia. Qed.

Lemma occurs_at_zero sub s : occurs_at sub s 0 <-> String.prefix sub s = true.
Proof.
  unfold occurs_at. destruct s; cbn [drop]; intuition lia.
Qed.

(** [rfind] returns [-1] when the substring does not occur and the index
    of its last occurrence when it does. *)
Lemma rfind_spec sub s :
  (rfind s sub = (-1)%Z /\ forall i, ~ occurs_at sub s i) \/
  (exists i, rfind s sub = Z.of_nat i /\ last_occurrence sub s i).
Proof.
  induction s as [|c s IH].
  - cbn [rfind]. destruct (String.eqb_spec sub "") as [->|Hne].
    + right. exists 0%nat. split; [reflexivity|]. split.
      * now apply occurs_at_nil.
      * intros j [-> _]%occurs_at_nil. lia.
    + left. split; [reflexivity|]. now intros i [_ ?]%occurs_at_nil.
  - cbn [rfind]. destruct IH as [[-> Hnone]|(i & -> & Hocc & Hlast)].
    + cbn [Z.leb]. change (0 ?= -1)%Z with Gt.
      destruct (String.prefix sub (String c s)) eqn:Hpre.
      * right. exists 0%nat. split; [reflexivity|]. split.
        -- now apply occurs_at_zero.
        -- intros [|j] Hj; [lia|]. apply occurs_at_succ in Hj. now destruct (Hnone j).
      * left. split; [reflexivity|]. intros [|j] Hj.
        -- apply occurs_at_zero in Hj. congruence.
        -- apply occurs_at_succ in Hj. now destruct (Hnone j).
    + right. exists (S i). replace (0 <=? Z.of_nat i)%Z with true
        by (symmetry; apply Z.leb_le; lia).
      split; [lia|]. split.
      * now apply occurs_at_succ.
      * intros [|j] Hj; [lia|]. apply occurs_at_succ in Hj.
        specialize (Hlast j Hj). lia.
Qed.

Lemma last_occurrence_unique sub s i j :
  last_occurrence sub s i -> last_occurrence sub s j -> i = j.
Proof.
  intros [Hi Hilast] [Hj Hjlast].
  specialize (Hilast j Hj). specialize (Hjlast i Hi). lia.
Qed.

Lemma rfind_absent sub s :
  (forall i, ~ occurs_at sub s i) -> rfind s sub = (-1)%Z.
Proof.
  intros Hnone. destruct (rfind_spec sub s) as [[Hr _]|(i & _ & Hocc & _)];
    [exact Hr|]. now destruct (Hnone i).
Qed.

Lemma rfind_last sub s i :
  last_occurrence sub s i -> rfind s sub = Z.of_nat i.
Proof.
  intros Hlast. destruct (rfind_spec sub s) as [[_ Hnone]|(j & Hr & Hj)].
  - now destruct (Hnone i), Hlast.
  - now rewrite (last_occurrence_unique _ _ _ _ Hlast Hj).
Qed.

Lemma rfind_missing sub s :
  rfind s sub = (-1)%Z -> forall i, ~ occurs_at sub s i.
Proof.
  intros Hr. destruct (rfind_spec sub s) as [[_ Hnone]|(i & Hi & _)];
    [exact Hnone|lia].
Qed.

Lemma rfind_found sub s i :
  rfind s sub = Z.of_nat i -> last_occurrence sub s i.
Proof.
  intros Hr. destruct (rfind_spec sub s) as [[Hnone _]|(j & Hj & Hlast)]; [lia|].
  now replace i with j by lia.
Qed.

(** The translation of the line ends neither hides nor creates an
    occurrence of a text that has no line end in it. *)
Lemma prefix_cons a t c s :
  String.prefix (String a t) (String c s)
  = if Ascii.eqb a c then String.prefix t s else false.
Proof.
  cbn [String.prefix]. destruct (ascii_dec a c) as [->|Hne].
  - now rewrite Ascii.eqb_refl.
  - now apply Ascii.eqb_neq in Hne as ->.
Qed.

Lemma prefix_nl_read t : forall s,
  nl_free t = true ->
  String.prefix t (nl_read false s) = String.prefix t s.
Proof.
  induction t as [|a t IH]; intros s Hfree;
    [destruct (nl_read false s); now destruct s|].
  cbn [nl_free] in Hfree.
  apply andb_true_iff in Hfree as [[Hcr Hlf]%andb_true_iff Hfree].
  apply negb_true_iff in Hcr, Hlf.
  destruct s as [|c s]; [reflexivity|]. cbn [nl_read].
  destruct (Ascii.eqb_spec c LF) as [->|Hc_lf].
  - now rewrite !prefix_cons, Hlf.
  - destruct (Ascii.eqb_spec c CR) as [->|Hc_cr].
    + now rewrite !prefix_cons, Hlf, Hcr.
    + rewrite !prefix_cons. destruct (Ascii.eqb a c); [now apply IH|reflexivity].
Qed.

Lemma occurs_nl_read a t s : forall after_cr,
  nl_free (String a t) = true ->
  (exists i, occurs_at (String a t) (nl_read after_cr s) i) <->
  (exists j, occurs_at (String a t) s j).
Proof.
  intros after_cr Hfree. revert after_cr.
  assert (Hhead : forall c r, c = CR \/ c = LF ->
            String.prefix (String a t) (String c r) = false).
  { intros c r Hc. rewrite prefix_cons. cbn [nl_free] in Hfree.
    apply andb_true_iff in Hfree as [[Hcr Hlf]%andb_true_iff _].
    apply negb_true_iff in Hcr, Hlf. destruct Hc as [->| ->]; now rewrite ?Hcr, ?Hlf. }
  assert (Hcons : forall c r,
            (exists j, occurs_at (String a t) (String c r) j) <->
            String.prefix (String a t) (String c r) = true \/
            exists j, occurs_at (String a t) r j).
  { intros c r. split.
    - intros [[|j] Hj].
      + left. exact (proj1 (occurs_at_zero _ _) Hj).
      + right. exists j. exact (proj1 (occurs_at_succ _ _ _ _) Hj).
    - intros [Hzero|[j Hj]].
      + exists 0%nat. exact (proj2 (occurs_at_zero _ _) Hzero).
      + exists (S j). exact (proj2 (occurs_at_succ _ _ _ _) Hj). }
  induction s as [|c s IH]; intros after_cr; [reflexivity|].
  cbn [nl_read].
  destruct (Ascii.eqb_spec c LF) as [->|Hc_lf].
  - destruct after_cr.
    + rewrite IH, (Hcons LF s), (Hhead LF s) by now right.
      split; [now right|]. now intros [?|?].
    + rewrite !Hcons, !Hhead by now right. rewrite IH. reflexivity.
  - destruct (Ascii.eqb_spec c CR) as [->|Hc_cr].
    + rewrite !Hcons, !Hhead by (first [now left|now right]).
      rewrite IH. reflexivity.
    + rewrite !Hcons, IH.
      assert (String.prefix (String a t) (String c (nl_read false s))
              = String.prefix (String a t) (String c s)) as ->; [|reflexivity].
      rewrite !prefix_cons. destruct (Ascii.eqb a c); [|reflexivity].
      apply prefix_nl_read. cbn [nl_free] in Hfree.
      now apply andb_true_iff in Hfree as [_ ?].
Qed.

Lemma read_text_inv bytes text :
  read_text bytes = Ok text ->
  Utf8.valid bytes = true /\ text = universal_newlines bytes.
Proof.
  unfold read_text. destruct (Utf8.valid bytes); [|discriminate].
  now intros [= <-].
Qed.

Lemma open_read_inv `{Os : PyOS} (fs : gmap string file) path f text :
  fs !! file_of_path path = Some f -> can_read f = true ->
  read_text (file_bytes f) = Ok text ->
  open_read fs path = Ok text.
Proof. intros Hfile Hread Htext. unfold open_read. now rewrite Hfile, Hread. Qed.

(** C6: for an output file that can be read as UTF-8 text: without a
    closing body tag in the text the function reports it and leaves the
    file store as it was; with one, the script block goes immediately in
    front of the last tag and the file is rewritten, the text on either
    side unchanged. The text read holds a closing tag exactly when the
    bytes of the file do. *)
Theorem inject_custom_js_before_last_body `{Os : PyOS} output_html f html_content
    (fs : gmap string file) :
  fs !! file_of_path output_html = Some f ->
  can_read f = true ->
  read_text (file_bytes f) = Ok html_content ->
  ((forall i, ~ occurs_at "</body>" html_content i) ->
     inject_custom_js output_html fs = (fs, TagNotFound)) /\
  (forall i, last_occurrence "</body>" html_content i ->
     can_write f = true ->
     inject_custom_js output_html fs
     = (<[file_of_path output_html :=
            File (nl_write os_linesep
                    (take i html_content +:+ custom_js +:+ drop i html_content))
                 true true]> fs, Injected) /\
     take i html_content +:+ drop i html_content = html_content /\
     startswith (drop i html_content) "</body>" = true) /\
  ((exists i, occurs_at "</body>" html_content i) <->
   (exists j, occurs_at "</body>" (file_bytes f) j)).
Proof.
  intros Hfile Hread Htext. unfold inject_custom_js.
  rewrite (open_read_inv _ _ _ _ Hfile Hread Htext). split; [|split].
  - intros Hnone. now rewrite (rfind_absent _ _ Hnone).
  - intros i Hlast Hwrite. rewrite (rfind_last _ _ _ Hlast).
    replace (Z.of_nat i =? -1)%Z with false by (symmetry; apply Z.eqb_neq; lia).
    rewrite Nat2Z.id. unfold open_write. rewrite Hfile, Hwrite, Hread.
    split; [reflexivity|]. split; [apply take_drop|]. apply Hlast.
  - apply read_text_inv in Htext as [_ ->]. now apply occurs_nl_read.
Qed.

Lemma inject_custom_js_before_last_body_witness :
  read_text page_without_body = Ok page_without_body /\
  (forall i, ~ occurs_at "</body>" page_without_body i) /\
  inject_custom_js "graph.html" (<["graph.html" := plain_file page_without_body]> ∅)
  = (<["graph.html" := plain_file page_without_body]> ∅, TagNotFound) /\
  read_text page_with_two_bodies = Ok page_with_two_bodies /\
  last_occurrence "</body>" page_with_two_bodies 19 /\
  inject_custom_js "./graph.html" (<["graph.html" := plain_file page_with_two_bodies]> ∅)
  = (<["graph.html" :=
         plain_file ("<body>a</body><!-- " +:+ custom_js +:+ "</body> --></html>")]>
       (<["graph.html" := plain_file page_with_two_bodies]> ∅), Injected).
Proof.
  assert (Hnone : forall i, ~ occurs_at "</body>" page_without_body i)
    by (apply rfind_missing; reflexivity).
  assert (Hlast : last_occurrence "</body>" page_with_two_bodies 19)
    by (apply rfind_found; reflexivity).
  split; [reflexivity|]. split; [exact Hnone|].
  split.
  { exact (proj1 (inject_custom_js_before_last_body (Os := posix_os) "graph.html"
                    (plain_file page_without_body) page_without_body
                    (<["graph.html" := plain_file page_without_body]> ∅)
                    eq_refl eq_refl eq_refl) Hnone). }
  split; [reflexivity|]. split; [exact Hlast|].
  exact (proj1 (proj1 (proj2 (inject_custom_js_before_last_body (Os := posix_os)
                         "./graph.html"
                         (plain_file page_with_two_bodies) page_with_two_bodies
                         (<["graph.html" := plain_file page_with_two_bodies]> ∅)
                         eq_refl eq_refl eq_refl))
                      19%nat Hlast eq_refl)).
Defined.

(** * Further properties *)

(** ** parse_dot_file: what the loop skips, where it stops, who wins *)

Lemma scan_subgraph_structural acc sg :
  is_visual_cluster sg = false -> scan_subgraph acc sg = Ok acc.
Proof. unfold scan_subgraph, is_visual_cluster. now intros ->. Qed.

(** X1: the groups that are not flagged contribute nothing: the map is the one
    of the flagged groups alone. *)
Theorem parse_dot_file_ignores_structural_groups (subs : list pydot_subgraph) :
  parse_dot_file (Dot subs) = parse_dot_file (Dot (List.filter is_visual_cluster subs)).
Proof.
  unfold parse_dot_file. cbn [graph_get_subgraphs].
  generalize (∅ : gmap string string).
  induction subs as [|sg subs IH]; intros acc; [reflexivity|].
  cbn [List.filter].
  destruct (is_visual_cluster sg) eqn:Hflag.
  - cbn [scan_subgraphs].
    destruct (scan_subgraph acc sg) as [acc'|e]; [|reflexivity].
    cbn. apply IH.
  - cbn [scan_subgraphs]. rewrite (scan_subgraph_structural _ _ Hflag).
    cbn. apply IH.
Qed.

(** X2: the load succeeds exactly when every flagged top-level group carries
    a label the loop can use: none, a string, a false value, or a
    non-empty list that starts with one of these. *)
Theorem parse_dot_file_ok_iff_labels_usable (g : pydot_graph) :
  (exists clusters, parse_dot_file g = Ok clusters) <->
  (forall sg, sg ∈ graph_get_subgraphs g -> is_visual_cluster sg = true ->
              usable_label (get_label sg) = true).
Proof.
  split; [|apply scan_subgraphs_total].
  unfold parse_dot_file. generalize (∅ : gmap string string).
  induction (graph_get_subgraphs g) as [|sg subs IH]; intros acc [clusters Hscan] sg' Hin Hflag.
  - now apply elem_of_nil in Hin.
  - cbn [scan_subgraphs] in Hscan.
    destruct (scan_subgraph acc sg) as [acc'|e] eqn:Hsg; [|discriminate].
    cbn in Hscan. apply elem_of_cons in Hin as [->|Hin].
    + destruct (usable_label (get_label sg)) eqn:Husable; [reflexivity|].
      destruct (usable_label_raises (strip dquote (get_name sg)) _ Husable) as [e He].
      unfold scan_subgraph in Hsg. unfold is_visual_cluster in Hflag.
      rewrite Hflag, He in Hsg. discriminate Hsg.
    + eapply IH; eauto.
Qed.

(** X3: the first flagged group whose label raises ends the load with that
    exception; nothing of the map built so far is returned. *)
Theorem parse_dot_file_raises_at_first_bad_label before sg after e :
  (forall s, s ∈ before -> is_visual_cluster s = true ->
             usable_label (get_label s) = true) ->
  is_visual_cluster sg = true ->
  cluster_label_of (strip dquote (get_name sg)) (get_label sg) = Raise e ->
  parse_dot_file (Dot (before ++ sg :: after)) = Raise e.
Proof.
  intros Hbefore Hflag Hlabel. unfold parse_dot_file. cbn [graph_get_subgraphs].
  rewrite scan_subgraphs_app.
  destruct (scan_subgraphs_total before ∅ Hbefore) as [clusters ->].
  cbn. unfold scan_subgraph. unfold is_visual_cluster in Hflag.
  now rewrite Hflag, Hlabel.
Qed.

Lemma parse_dot_file_raises_at_first_bad_label_witness :
  (forall s, s ∈ [Subgraph "cluster_a" (PStr "A") [Node "a"] []] ->
             is_visual_cluster s = true -> usable_label (get_label s) = true) /\
  cluster_label_of "cluster_b" (PList []) = Raise IndexError /\
  parse_dot_file empty_list_label_graph = Raise IndexError.
Proof.
  assert (Hbefore : forall s, s ∈ [Subgraph "cluster_a" (PStr "A") [Node "a"] []] ->
             is_visual_cluster s = true -> usable_label (get_label s) = true).
  { intros s Hin _. apply elem_of_cons in Hin as [->|Hin]; [reflexivity|].
    now apply elem_of_nil in Hin. }
  split; [exact Hbefore|]. split; [reflexivity|].
  exact (parse_dot_file_raises_at_first_bad_label
           [Subgraph "cluster_a" (PStr "A") [Node "a"] []]
           (Subgraph "cluster_b" (PList []) [Node "b"] [])
           [Subgraph "cluster_c" (PStr "C") [Node "c"] []]
           IndexError Hbefore eq_refl eq_refl).
Defined.

(** X4: a node declared in several flagged groups is mapped to the label of
    the last one that declares it. *)
Theorem parse_dot_file_last_declaration_wins before sg after node clusters :
  parse_dot_file (Dot (before ++ sg :: after)) = Ok clusters ->
  is_visual_cluster sg = true ->
  node ∈ get_nodes sg ->
  (forall later, later ∈ after -> is_visual_cluster later = true ->
     forall other, other ∈ get_nodes later ->
       strip dquote (node_get_name other) <> strip dquote (node_get_name node)) ->
  exists label,
    cluster_label_of (strip dquote (get_name sg)) (get_label sg) = Ok label /\
    clusters !! strip dquote (node_get_name node) = Some label.
Proof.
  unfold parse_dot_file. cbn [graph_get_subgraphs].
  rewrite scan_subgraphs_app. intros Hscan Hflag Hnode Hlater.
  destruct (scan_subgraphs ∅ before) as [acc|e]; [|discriminate].
  cbn in Hscan. cbn [scan_subgraphs] in Hscan.
  destruct (scan_subgraph acc sg) as [acc'|e] eqn:Hsg; [|discriminate].
  cbn in Hscan. rewrite (scan_subgraphs_untouched _ _ _ _ Hscan Hlater).
  unfold scan_subgraph in Hsg. unfold is_visual_cluster in Hflag.
  rewrite Hflag in Hsg.
  destruct (cluster_label_of _ (get_label sg)) as [label|e]; [|discriminate].
  cbn in Hsg. injection Hsg as <-. exists label. split; [reflexivity|].
  rewrite lookup_foldl_insert, decide_True; [reflexivity|].
  rewrite <- node_key_strip. now apply list_elem_of_fmap_2.
Qed.

Lemma parse_dot_file_last_declaration_wins_witness :
  exists clusters,
    parse_dot_file shared_node_graph = Ok clusters /\
    clusters !! "n" = Some "Second" /\
    clusters !! "a" = Some "First".
Proof.
  assert (Hparse : parse_dot_file shared_node_graph
            = Ok (<["c" := "Third"]> (<["n" := "Second"]>
                    (<["a" := "First"]> (<["n" := "First"]> ∅)))))
    by reflexivity.
  eexists. split; [exact Hparse|]. split; [|reflexivity].
  destruct (parse_dot_file_last_declaration_wins
              [Subgraph "cluster_a" (PStr "First") [Node "n"; Node "a"] []]
              (Subgraph "cluster_b" (PStr "Second") [Node (dquote +:+ "n" +:+ dquote)] [])
              [Subgraph "cluster_c" (PStr "Third") [Node "c"] []]
              (Node (dquote +:+ "n" +:+ dquote)) _ Hparse eq_refl)
    as (label & Hlabel & Hlook).
  - apply list_elem_of_here.
  - intros later Hin _ other Hother.
    apply elem_of_cons in Hin as [->|Hin]; [|now apply elem_of_nil in Hin].
    apply elem_of_cons in Hother as [->|Hother]; [discriminate|].
    now apply elem_of_nil in Hother.
  - injection Hlabel as <-. exact Hlook.
Defined.

Lemma cluster_label_of_stripped name label l :
  cluster_label_of (strip dquote name) label = Ok l -> quote_at_an_end l = false.
Proof.
  unfold cluster_label_of.
  assert (Hplain : forall v,
    (if truthy v
     then match v with PStr s => Ok (strip dquote s) | _ => Raise AttributeError end
     else Ok (strip dquote name)) = Ok l -> quote_at_an_end l = false).
  { intros v. destruct (truthy v).
    - destruct v; try discriminate. intros [= <-].
      apply strip_dquote_no_quote_at_an_end.
    - intros [= <-]. apply strip_dquote_no_quote_at_an_end. }
  destruct label as [| b | z | s | [|first rest]]; cbn [mbind result_bind];
    try apply Hplain. discriminate.
Qed.

(** X5: no key and no label of the cluster map starts or ends with a quote
    character. *)
Theorem parse_dot_file_entries_unquoted g clusters key label :
  parse_dot_file g = Ok clusters ->
  clusters !! key = Some label ->
  quote_at_an_end key = false /\ quote_at_an_end label = false.
Proof.
  intros Hparse Hlook.
  destruct (scan_subgraphs_sound _ _ _ _ _ Hparse Hlook) as [Hempty|Hentry].
  - rewrite lookup_empty in Hempty. discriminate Hempty.
  - destruct Hentry as (sg & node & _ & _ & _ & -> & Hlabel). split.
    + apply strip_dquote_no_quote_at_an_end.
    + exact (cluster_label_of_stripped _ _ _ Hlabel).
Qed.

Lemma parse_dot_file_entries_unquoted_witness :
  parse_dot_file flat_cluster_graph
  = Ok (<["d" := "cluster_1"]> (<["b c" := "Core"]> (<["a" := "Core"]> ∅))) /\
  quote_at_an_end "b c" = false /\ quote_at_an_end "Core" = false.
Proof.
  split; [reflexivity|].
  exact (parse_dot_file_entries_unquoted flat_cluster_graph _ "b c" "Core"
           eq_refl eq_refl).
Defined.

(** ** generate_group_styles: what every run has in common *)

Lemma foldl_insert_style_lookup clusters colors c style :
  NoDup clusters -> length colors = length clusters ->
  foldl insert_style ∅ (zip clusters colors) !! c = Some style <->
  exists i color,
    clusters !! i = Some c /\ colors !! i = Some color /\
    style = GroupStyle color "#2B7CE9".
Proof.
  intros Hnodup Hlen. split.
  - intros Hlook. destruct (decide (c ∈ clusters)) as [Hin|Hout].
    + apply list_elem_of_lookup in Hin as [i Hi].
      destruct (lookup_lt_is_Some_2 colors i) as [color Hcolor].
      { rewrite Hlen. now apply lookup_lt_Some in Hi. }
      exists i, color. split; [exact Hi|]. split; [exact Hcolor|].
      rewrite (foldl_insert_style_at _ _ _ _ _ _ Hnodup Hi Hcolor) in Hlook.
      now injection Hlook.
    + rewrite foldl_insert_style_other in Hlook by exact Hout.
      rewrite lookup_empty in Hlook. discriminate Hlook.
  - intros (i & color & Hi & Hcolor & ->).
    exact (foldl_insert_style_at _ _ _ _ _ _ Hnodup Hi Hcolor).
Qed.

Section RunFacts.
Context `{Rng : PyRandom}.

Lemma generate_unique_colors_length n st :
length (fst (generate_unique_colors n st)) = n.
Proof. apply draw_colors_length. Qed.

(** A run unfolded: its iteration order and the colours it drew. *)
Lemma generate_group_styles_inv clusters st group_styles :
generate_group_styles clusters st group_styles ->
exists order,
  iterates_set_of_values clusters order /\
  group_styles
  = foldl insert_style ∅
      (zip order (fst (generate_unique_colors (length order) st))).
Proof.
intros (order & Horder & ->). exists order. split; [exact Horder|].
unfold group_styles_in_order.
now destruct (generate_unique_colors (length order) st).
Qed.

Lemma group_styles_entries clusters st group_styles :
generate_group_styles clusters st group_styles ->
(forall c, is_Some (group_styles !! c) <-> exists node, clusters !! node = Some c) /\
(forall c style, group_styles !! c = Some style -> color_border style = "#2B7CE9").
Proof.
intros (order & [Hnodup Hmem] & ->)%generate_group_styles_inv.
pose proof (generate_unique_colors_length (length order) st) as Hlen.
split.
- intros c. rewrite <- Hmem. split.
  + intros [style Hstyle].
    apply (foldl_insert_style_lookup _ _ _ _ Hnodup Hlen) in Hstyle
      as (i & _ & Hi & _).
    apply list_elem_of_lookup. eauto.
  + intros [i Hi]%list_elem_of_lookup.
    destruct (lookup_lt_is_Some_2 (fst (generate_unique_colors (length order) st)) i)
      as [color Hcolor].
    { rewrite Hlen. now apply lookup_lt_Some in Hi. }
    exists (GroupStyle color "#2B7CE9").
    apply (foldl_insert_style_lookup _ _ _ _ Hnodup Hlen). eauto.
- intros c style Hstyle.
  apply (foldl_insert_style_lookup _ _ _ _ Hnodup Hlen) in Hstyle
    as (i & color & _ & _ & ->).
  reflexivity.
Qed.

(** X6: in every run the table has an entry for each distinct cluster label
  and for nothing else, and every entry carries the fixed border. *)
Theorem generate_group_styles_covers_labels clusters st group_styles :
generate_group_styles clusters st group_styles ->
(forall c, is_Some (group_styles !! c) <-> exists node, clusters !! node = Some c) /\
(forall c style, group_styles !! c = Some style -> color_border style = "#2B7CE9").
Proof. apply group_styles_entries. Qed.

(** The background colours of a run are the first colours of the seeded
  sequence, as many as there are entries. *)
Lemma generate_group_styles_backgrounds order st color :
NoDup order ->
(exists c style,
    foldl insert_style ∅
      (zip order (fst (generate_unique_colors (length order) st))) !! c
    = Some style /\ color_background style = color) <->
color ∈ fst (generate_unique_colors (length order) st).
Proof.
intros Hnodup.
pose proof (generate_unique_colors_length (length order) st) as Hlen.
split.
- intros (c & style & Hstyle & <-).
  apply (foldl_insert_style_lookup _ _ _ _ Hnodup Hlen) in Hstyle
    as (i & color & _ & Hcolor & ->).
  apply list_elem_of_lookup. eauto.
- intros [i Hcolor]%list_elem_of_lookup.
  destruct (lookup_lt_is_Some_2 order i) as [c Hc].
  { rewrite <- Hlen. now apply lookup_lt_Some in Hcolor. }
  exists c, (GroupStyle color "#2B7CE9"). split; [|reflexivity].
  apply (foldl_insert_style_lookup _ _ _ _ Hnodup Hlen). eauto.
Qed.

Lemma iteration_orders_same_length clusters order1 order2 :
iterates_set_of_values clusters order1 ->
iterates_set_of_values clusters order2 ->
length order1 = length order2.
Proof.
intros [Hnodup1 Hmem1] [Hnodup2 Hmem2].
apply Permutation_length, NoDup_Permutation; [assumption..|].
intros c. now rewrite Hmem1, Hmem2.
Qed.

(** X7: two runs over the same cluster map use the same set of background
  colours, whatever the iteration order and the earlier state of the
  generator: only the assignment to labels can differ. *)
Theorem generate_group_styles_same_palette clusters st1 st2 run1 run2 :
generate_group_styles clusters st1 run1 ->
generate_group_styles clusters st2 run2 ->
forall color,
  (exists c style, run1 !! c = Some style /\ color_background style = color) <->
  (exists c style, run2 !! c = Some style /\ color_background style = color).
Proof.
intros (order1 & Horder1 & ->)%generate_group_styles_inv
       (order2 & Horder2 & ->)%generate_group_styles_inv color.
rewrite (generate_group_styles_backgrounds _ _ _ (proj1 Horder1)).
rewrite (generate_group_styles_backgrounds _ _ _ (proj1 Horder2)).
rewrite (iteration_orders_same_length _ _ _ Horder1 Horder2).
reflexivity.
Qed.

(** A duplicate-free list whose members are all equal to the members of
  a second one, when all of them are one value. *)
Lemma single_valued_orders_equal (order1 order2 : list string) :
NoDup order1 -> NoDup order2 ->
(forall c, c ∈ order1 <-> c ∈ order2) ->
(forall c d, c ∈ order1 -> d ∈ order1 -> c = d) ->
order1 = order2.
Proof.
intros Hnodup1 Hnodup2 Hmem Hone.
assert (Hshape : forall l : list string, NoDup l ->
          (forall c d, c ∈ l -> d ∈ l -> c = d) ->
          l = [] \/ exists c, l = [c]).
{ intros [|c [|d l]] Hnodup Hsame; [now left|right; now exists c|].
  exfalso. apply NoDup_cons in Hnodup as [Hc _]. apply Hc.
  rewrite (Hsame c d); [apply list_elem_of_here| apply list_elem_of_here|].
  apply list_elem_of_further, list_elem_of_here. }
destruct (Hshape order1 Hnodup1 Hone) as [->|[c ->]];
  (destruct (Hshape order2 Hnodup2) as [->|[d ->]];
   [intros x y Hx Hy; apply Hone; now apply Hmem| |]).
- reflexivity.
- exfalso. apply (elem_of_nil d), Hmem, list_elem_of_here.
- exfalso. apply (elem_of_nil c), Hmem, list_elem_of_here.
- f_equal. apply Hone; [apply list_elem_of_here|].
  apply Hmem, list_elem_of_here.
Qed.

(** X8: with one cluster label, or none, the table is the same in every run. *)
Theorem generate_group_styles_single_label_reproducible clusters :
(forall node1 node2 c1 c2,
    clusters !! node1 = Some c1 -> clusters !! node2 = Some c2 -> c1 = c2) ->
same_table_in_every_run clusters.
Proof.
intros Hone st1 st2 run1 run2 (order1 & [Hn1 Hm1] & ->) (order2 & [Hn2 Hm2] & ->).
assert (order1 = order2) as ->; [|reflexivity].
apply single_valued_orders_equal; [assumption..| |].
- intros c. now rewrite Hm1, Hm2.
- intros c d [n1 Hc]%Hm1 [n2 Hd]%Hm1. exact (Hone _ _ _ _ Hc Hd).
Qed.

End RunFacts.

Lemma two_clusters_run_ab (st : MT19937.state) :
  generate_group_styles two_clusters st
    (fst (group_styles_in_order (Rng := mt19937_random) ["A"; "B"] st)).
Proof. exists ["A"; "B"]. split; [apply two_clusters_orders|reflexivity]. Qed.

Lemma two_clusters_run_ba (st : MT19937.state) :
  generate_group_styles two_clusters st
    (fst (group_styles_in_order (Rng := mt19937_random) ["B"; "A"] st)).
Proof. exists ["B"; "A"]. split; [apply two_clusters_orders|reflexivity]. Qed.

Lemma generate_group_styles_covers_labels_witness :
  generate_group_styles two_clusters (MT19937.seed 7)
    (fst (group_styles_in_order (Rng := mt19937_random) ["A"; "B"] (MT19937.seed 7))) /\
  (is_Some (fst (group_styles_in_order (Rng := mt19937_random) ["A"; "B"]
                   (MT19937.seed 7)) !! "B") <->
   exists node, two_clusters !! node = Some "B").
Proof.
  split; [apply two_clusters_run_ab|].
  exact (proj1 (generate_group_styles_covers_labels _ _ _
                  (two_clusters_run_ab (MT19937.seed 7))) "B").
Defined.

Lemma generate_group_styles_same_palette_witness :
  generate_group_styles two_clusters (MT19937.seed 7)
    (fst (group_styles_in_order (Rng := mt19937_random) ["A"; "B"] (MT19937.seed 7))) /\
  generate_group_styles two_clusters (MT19937.seed 8)
    (fst (group_styles_in_order (Rng := mt19937_random) ["B"; "A"] (MT19937.seed 8))) /\
  ((exists c style,
       fst (group_styles_in_order (Rng := mt19937_random) ["A"; "B"] (MT19937.seed 7)) !! c
       = Some style /\ color_background style = "#390062") <->
   (exists c style,
       fst (group_styles_in_order (Rng := mt19937_random) ["B"; "A"] (MT19937.seed 8)) !! c
       = Some style /\ color_background style = "#390062")).
Proof.
  split; [apply two_clusters_run_ab|]. split; [apply two_clusters_run_ba|].
  exact (generate_group_styles_same_palette _ _ _ _ _
           (two_clusters_run_ab (MT19937.seed 7))
           (two_clusters_run_ba (MT19937.seed 8)) "#390062").
Defined.

Lemma generate_group_styles_single_label_reproducible_witness :
  (forall node1 node2 c1 c2,
      one_cluster !! node1 = Some c1 -> one_cluster !! node2 = Some c2 -> c1 = c2) /\
  same_table_in_every_run (Rng := mt19937_random) one_cluster.
Proof.
  assert (Hone : forall node1 node2 c1 c2,
      one_cluster !! node1 = Some c1 -> one_cluster !! node2 = Some c2 -> c1 = c2).
  { assert (Hcore : forall node c, one_cluster !! node = Some c -> c = "Core").
    { intros node c Hnode. unfold one_cluster in Hnode.
      apply lookup_insert_Some in Hnode as [[_ <-]|[_ Hnode]]; [reflexivity|].
      apply lookup_insert_Some in Hnode as [[_ <-]|[_ Hnode]]; [reflexivity|].
      rewrite lookup_empty in Hnode. discriminate Hnode. }
    intros node1 node2 c1 c2 H1 H2.
    now rewrite (Hcore _ _ H1), (Hcore _ _ H2). }
  split; [exact Hone|].
  exact (generate_group_styles_single_label_reproducible one_cluster Hone).
Defined.

(** ** create_interactive_graph: the scene as a whole *)

Section SceneFacts.
Context `{Flt : PyFloat}.

Lemma build_node_id clusters node data vn :
build_node clusters node data = Ok vn -> vn_id vn = node.
Proof. now intros (Hid & _)%build_node_fields. Qed.

(** X11: the scene holds one node per graph node and one edge per graph edge,
  in the order of the graph, under the same identifiers and end points;
  repeated edges stay repeated. *)
Theorem create_interactive_graph_keeps_structure g clusters nodes edges :
create_interactive_graph g clusters = Ok (nodes, edges) ->
map vn_id nodes = map fst (nx_nodes g) /\
map (fun e => (ve_source e, ve_to e)) edges = map fst (nx_edges g).
Proof.
intros [Hnodes ->]%create_interactive_graph_elements. split.
- induction Hnodes as [|[node data] vn rest built Hvn _ IH]; [reflexivity|].
  cbn [map fst]. f_equal; [|exact IH]. exact (build_node_id _ _ _ _ Hvn).
- induction (nx_edges g) as [|[[source target] data] rest IH]; [reflexivity|].
  cbn [map]. now f_equal.
Qed.

(** A [ValueError] never leaves the font size conversion. *)
Lemma font_size_never_value_error fontsize :
font_size fontsize <> Raise ValueError.
Proof.
unfold font_size. destruct (float_of_str fontsize) as [x|]; [|discriminate].
destruct (int_of_float x) as [z|[]]; discriminate.
Qed.

Lemma add_nodes_raises clusters nodes : forall e,
add_nodes clusters nodes = Raise e ->
exists node data,
  (node, data) ∈ nodes /\
  font_size (clean_text (get data "fontsize" "14")) = Raise e.
Proof.
induction nodes as [|[node data] nodes IH]; intros e Hraise; [discriminate|].
cbn [add_nodes] in Hraise. unfold build_node in Hraise.
destruct (font_size (clean_text (get data "fontsize" "14"))) as [size|e'] eqn:Hsize.
- cbn in Hraise. destruct (add_nodes clusters nodes) as [vns|e'']; [discriminate|].
  cbn in Hraise. injection Hraise as ->.
  destruct (IH e eq_refl) as (node' & data' & Hin & Hbad).
  exists node', data'. split; [|exact Hbad]. apply elem_of_cons. now right.
- cbn in Hraise. injection Hraise as ->.
  exists node, data. split; [|exact Hsize]. apply elem_of_cons. now left.
Qed.

Lemma create_interactive_graph_raise_cause g clusters e :
create_interactive_graph g clusters = Raise e ->
e <> ValueError /\
exists node data x,
  (node, data) ∈ nx_nodes g /\
  float_of_str (clean_text (get data "fontsize" "14")) = Some x /\
  int_of_float x = Raise e.
Proof.
unfold create_interactive_graph.
destruct (add_nodes clusters (nx_nodes g)) as [built|e'] eqn:Hbuilt;
  [discriminate|].
cbn. intros [= ->].
destruct (add_nodes_raises _ _ _ Hbuilt) as (node & data & Hin & Hsize).
split.
- intros ->. exact (font_size_never_value_error _ Hsize).
- exists node, data. unfold font_size in Hsize.
  destruct (float_of_str (clean_text (get data "fontsize" "14"))) as [x|] eqn:Hx;
    [|discriminate].
  exists x. split; [exact Hin|]. split; [exact Hx|].
  destruct (int_of_float x) as [z|[]]; try discriminate; exact Hsize.
Qed.


(** The scene is built whenever every font size converts. *)
Lemma create_interactive_graph_total g clusters :
(forall node data, (node, data) ∈ nx_nodes g ->
   exists size, font_size (clean_text (get data "fontsize" "14")) = Ok size) ->
exists nodes edges, create_interactive_graph g clusters = Ok (nodes, edges).
Proof.
intros Hsizes.
destruct (create_interactive_graph g clusters) as [[nodes edges]|e] eqn:Hscene;
  [eauto|].
exfalso.
apply create_interactive_graph_raise_cause in Hscene
  as (Hne & node & data & x & Hin & Hparse & Hraise).
destruct (Hsizes node data Hin) as [size Hsize].
unfold font_size in Hsize. rewrite Hparse, Hraise in Hsize.
destruct e; try discriminate. now apply Hne.
Qed.

End SceneFacts.

(** ** Single characters at the ends of a stripped string *)

Lemma startswith_char d rest c :
  startswith (String d rest) (String c EmptyString) = Ascii.eqb d c.
Proof.
  unfold startswith. cbn [String.prefix].
  destruct (ascii_dec c d) as [<-|Hne].
  - rewrite Ascii.eqb_refl. now destruct rest.
  - symmetry. apply Ascii.eqb_neq. congruence.
Qed.

Lemma endswith_char_single d c :
  endswith (String d EmptyString) (String c EmptyString) = Ascii.eqb d c.
Proof.
  cbn [endswith String.eqb]. rewrite orb_false_r.
  now destruct (Ascii.eqb d c).
Qed.

Lemma endswith_char_cons a d rest c :
  endswith (String a (String d rest)) (String c EmptyString)
  = endswith (String d rest) (String c EmptyString).
Proof.
  change (endswith (String a (String d rest)) (String c EmptyString))
    with (String.eqb (String a (String d rest)) (String c EmptyString)
          || endswith (String d rest) (String c EmptyString)).
  cbn [String.eqb]. now destruct (Ascii.eqb a c).
Qed.

Lemma char_in_false_neq chars a c :
  char_in a chars = false -> char_in c chars = true -> Ascii.eqb a c = false.
Proof.
  intros Ha Hc. apply Ascii.eqb_neq. intros ->. congruence.
Qed.

Lemma rstrip_not_ends chars c s :
  char_in c chars = true ->
  endswith (rstrip chars s) (String c EmptyString) = false.
Proof.
  intros Hc. induction s as [|a s IH]; [reflexivity|].
  cbn [rstrip]. destruct (rstrip chars s) as [|d kept] eqn:Hs.
  - destruct (char_in a chars) eqn:Ha; [reflexivity|].
    rewrite endswith_char_single. exact (char_in_false_neq _ _ _ Ha Hc).
  - now rewrite endswith_char_cons.
Qed.

Lemma strip_not_starts chars c s :
  char_in c chars = true ->
  startswith (strip chars s) (String c EmptyString) = false.
Proof.
  intros Hc. destruct (strip chars s) as [|d rest] eqn:Hs; [reflexivity|].
  rewrite startswith_char.
  exact (char_in_false_neq _ _ _ (strip_head _ _ _ _ Hs) Hc).
Qed.

(** ** create_interactive_graph: single nodes and edges *)

Section ElementFacts.
Context `{Flt : PyFloat}.

(** X13: the label of a node never starts or ends with an angle bracket. *)
Theorem node_label_without_outer_brackets clusters node data vn c :
build_node clusters node data = Ok vn ->
char_in c "<>" = true ->
startswith (vn_label vn) (String c EmptyString) = false /\
endswith (vn_label vn) (String c EmptyString) = false.
Proof.
intros (_ & -> & _)%build_node_fields Hc. split.
- now apply strip_not_starts.
- now apply rstrip_not_ends.
Qed.

(** X14: an edge is dashed exactly when it has a style attribute whose cleaned
  value is [dashed]; every edge is smooth. *)
Theorem edge_dashed_iff_style source target data :
(ve_dashes (build_edge source target data) = true <->
 exists v, data !! "style" = Some v /\ clean_text v = "dashed") /\
ve_smooth (build_edge source target data) = true.
Proof.
split; [|reflexivity].
unfold build_edge, get. cbn [ve_dashes].
destruct (data !! "style") as [v|]; cbn [from_option id].
- destruct (String.eqb_spec (clean_text v) "dashed") as [Heq|Hne].
  + split; [eauto|reflexivity].
  + split; [discriminate|]. intros (v' & [= <-] & Hv'). contradiction.
- split; [discriminate|]. now intros (v & Hv & _).
Qed.

(** X15: an edge is built from five attributes only: two dictionaries that
  agree on them give the same edge, so the label and the URL of an
  edge, and any attribute the script does not know, never reach the
  scene. *)
Theorem build_edge_reads_five_attributes source target data data' :
(forall key, key ∈ edge_keys -> data !! key = data' !! key) ->
build_edge source target data = build_edge source target data'.
Proof.
intros Hagree. unfold build_edge, edge_width, get.
rewrite (Hagree "tooltip"), (Hagree "color"), (Hagree "arrowhead"),
        (Hagree "style"), (Hagree "penwidth");
  [reflexivity|unfold edge_keys; set_solver..].
Qed.

End ElementFacts.

Section GroupFacts.
Context `{Rng : PyRandom} `{Flt : PyFloat}.

(** X16: a node found in the cluster map is tagged with its cluster label, and
  the table of every run has a style for that tag; any other node is
  tagged [default]. *)
Theorem node_group_has_style clusters st group_styles node data vn :
generate_group_styles clusters st group_styles ->
build_node clusters node data = Ok vn ->
(forall c, clusters !! node = Some c ->
   vn_group vn = c /\ is_Some (group_styles !! vn_group vn)) /\
(clusters !! node = None -> vn_group vn = "default").
Proof.
intros [Hdom _]%group_styles_entries Hvn.
apply build_node_fields in Hvn as (_ & _ & _ & _ & _ & _ & _ & _ & ->).
split.
- intros c Hc. rewrite Hc. cbn [from_option id]. split; [reflexivity|].
  apply Hdom. eauto.
- now intros ->.
Qed.

End GroupFacts.

(** ** Slices of a concatenation *)

Lemma length_append (a b : string) :
  String.length (a +:+ b) = (String.length a + String.length b)%nat.
Proof.
  induction a as [|c a IH]; [reflexivity|].
  rewrite append_cons. cbn [String.length]. now rewrite IH.
Qed.

Lemma length_take n : forall s,
  (n <= String.length s)%nat -> String.length (take n s) = n.
Proof.
  induction n as [|n IH]; intros [|c s] Hn; cbn in *; try reflexivity; try lia.
  rewrite IH; [reflexivity|lia].
Qed.

Lemma drop_prefix (a b : string) n :
  String.length a = n -> drop n (a +:+ b) = b.
Proof.
  intros <-. induction a as [|c a IH]; [now destruct b|].
  rewrite append_cons. cbn [String.length drop]. exact IH.
Qed.

Lemma take_prefix (a b : string) n :
  String.length a = n -> take n (a +:+ b) = a.
Proof.
  intros <-. induction a as [|c a IH]; [now destruct b|].
  rewrite append_cons. cbn [String.length take]. now rewrite IH.
Qed.

Lemma take_add (a b : string) n m :
  String.length a = n -> take (n + m) (a +:+ b) = a +:+ take m b.
Proof.
  intros <-. induction a as [|c a IH]; [reflexivity|].
  rewrite !append_cons. cbn [String.length Nat.add take]. now rewrite IH.
Qed.

Lemma drop_add n : forall m s, drop (n + m) s = drop m (drop n s).
Proof.
  induction n as [|n IH]; intros m s; [reflexivity|].
  destruct s as [|c s]; [now destruct m|]. cbn [Nat.add drop]. apply IH.
Qed.

Section Splice.
Variables (sub block text : string) (i : nat).
Hypothesis Hlast : last_occurrence sub text i.

Lemma splice_bound : (i <= String.length text)%nat.
Proof. apply Hlast. Qed.

Lemma splice_length :
String.length (take i text +:+ block +:+ drop i text)
= (String.length text + String.length block)%nat.
Proof.
rewrite !length_append.
rewrite <- (take_drop i text) at 3. rewrite length_append. lia.
Qed.

Lemma splice_tail :
drop (i + String.length block) (take i text +:+ block +:+ drop i text)
= drop i text.
Proof.
rewrite drop_add.
rewrite (drop_prefix _ _ i (length_take i text splice_bound)).
now apply drop_prefix.
Qed.

Lemma splice_head :
take i (take i text +:+ block +:+ drop i text) = take i text.
Proof. apply take_prefix, length_take, splice_bound. Qed.

Lemma splice_head_block :
take (i + String.length block) (take i text +:+ block +:+ drop i text)
= take i text +:+ block.
Proof.
rewrite (take_add _ _ i _ (length_take i text splice_bound)).
f_equal. now apply take_prefix.
Qed.

(** After a block is put in front of the last occurrence, the occurrence
  is still the last one, moved by the length of the block. *)
Lemma splice_last_occurrence :
last_occurrence sub (take i text +:+ block +:+ drop i text)
                (i + String.length block).
Proof.
destruct Hlast as [[Hbound Hhere] Hlater]. split.
- split; [rewrite splice_length; lia|]. now rewrite splice_tail.
- intros j [Hj Hocc].
  destruct (Nat.le_gt_cases j (i + String.length block)) as [|Hgt]; [assumption|].
  exfalso.
  assert (Hshift : occurs_at sub text (j - String.length block)).
  { split; [rewrite splice_length in Hj; lia|].
    replace j with ((i + String.length block) + (j - (i + String.length block)))%nat
      in Hocc by lia.
    rewrite drop_add, splice_tail, <- drop_add in Hocc.
    now replace (i + (j - (i + String.length block)))%nat
      with (j - String.length block)%nat in Hocc by lia. }
  specialize (Hlater _ Hshift). lia.
Qed.

End Splice.

(** ** Text files: decoding and line ends *)

Lemma utf8_run_app a : forall q b,
  Utf8.run q (a +:+ b) = Utf8.run q a ≫= fun q' => Utf8.run q' b.
Proof.
  induction a as [|c a IH]; intros q b; [reflexivity|].
  rewrite append_cons. cbn [Utf8.run].
  destruct (Utf8.step q c) as [q'|]; [apply IH|reflexivity].
Qed.

Lemma utf8_between_above lo hi c :
  (N_of_ascii c <= 127)%N -> (128 <= lo)%N -> Utf8.between lo hi c = false.
Proof.
  intros Hc Hlo. unfold Utf8.between.
  destruct (N.leb_spec lo (N_of_ascii c)); [lia|reflexivity].
Qed.

(** An ASCII byte is read at a character boundary and nowhere else. *)
Lemma utf8_step_ascii q c :
  (N_of_ascii c <= 127)%N ->
  Utf8.step q c = match q with Utf8.Start => Some Utf8.Start | _ => None end.
Proof.
  intros Hc. destruct q; cbn [Utf8.step];
    try (rewrite utf8_between_above by (assumption || lia); reflexivity).
  unfold Utf8.between at 1.
  destruct (N.leb_spec 0 (N_of_ascii c)); [|lia].
  destruct (N.leb_spec (N_of_ascii c) 127); [reflexivity|lia].
Qed.

Lemma utf8_step_lf q :
  Utf8.step q LF = match q with Utf8.Start => Some Utf8.Start | _ => None end.
Proof. apply utf8_step_ascii. vm_compute. discriminate. Qed.

Lemma utf8_step_cr q :
  Utf8.step q CR = match q with Utf8.Start => Some Utf8.Start | _ => None end.
Proof. apply utf8_step_ascii. vm_compute. discriminate. Qed.

(** The translation of the line ends does not change what decodes. *)
Lemma utf8_run_nl_read s : forall q after_cr,
  (after_cr = true -> q = Utf8.Start) ->
  Utf8.run q (nl_read after_cr s) = Utf8.run q s.
Proof.
  induction s as [|c s IH]; intros q after_cr Hq; [reflexivity|].
  cbn [nl_read].
  destruct (Ascii.eqb_spec c LF) as [->|Hlf].
  - destruct after_cr.
    + rewrite (Hq eq_refl). cbn [Utf8.run]. rewrite utf8_step_lf.
      now apply IH.
    + cbn [Utf8.run]. rewrite utf8_step_lf.
      destruct q; try reflexivity. now apply IH.
  - destruct (Ascii.eqb_spec c CR) as [->|Hcr].
    + cbn [Utf8.run]. rewrite utf8_step_lf, utf8_step_cr.
      destruct q; try reflexivity. now apply IH.
    + cbn [Utf8.run]. destruct (Utf8.step q c); [|reflexivity].
      now apply IH.
Qed.

Lemma utf8_run_nl_write sep s : forall q,
  Utf8.run q (nl_write sep s) = Utf8.run q s.
Proof.
  induction s as [|c s IH]; intros q; [reflexivity|].
  cbn [nl_write].
  destruct (Ascii.eqb_spec c LF) as [->|Hlf].
  - destruct sep; cbn [Utf8.run]; rewrite ?utf8_step_cr, utf8_step_lf;
      destruct q; try reflexivity; apply IH.
  - cbn [Utf8.run]. destruct (Utf8.step q c); [apply IH|reflexivity].
Qed.

Lemma utf8_valid_read s : Utf8.valid (universal_newlines s) = Utf8.valid s.
Proof.
  unfold Utf8.valid, universal_newlines.
  now rewrite utf8_run_nl_read by discriminate.
Qed.

Lemma utf8_valid_write sep s : Utf8.valid (nl_write sep s) = Utf8.valid s.
Proof. unfold Utf8.valid. now rewrite utf8_run_nl_write. Qed.

(** A valid text cut in front of an ASCII byte gives two valid texts, and
    valid texts put together give a valid text. *)
Lemma utf8_valid_app a b :
  Utf8.valid a = true -> Utf8.valid b = true -> Utf8.valid (a +:+ b) = true.
Proof.
  unfold Utf8.valid. rewrite utf8_run_app.
  destruct (Utf8.run Utf8.Start a) as [[]|]; try discriminate. now cbn.
Qed.

Lemma utf8_valid_cut a c b :
  (N_of_ascii c <= 127)%N ->
  Utf8.valid (a +:+ String c b) = true ->
  Utf8.valid a = true /\ Utf8.valid (String c b) = true.
Proof.
  intros Hc. unfold Utf8.valid. rewrite utf8_run_app.
  destruct (Utf8.run Utf8.Start a) as [q|]; [|discriminate].
  cbn [mbind option_bind Utf8.run]. rewrite (utf8_step_ascii q c Hc).
  destruct q; try discriminate. cbn [Utf8.run].
  rewrite (utf8_step_ascii Utf8.Start c Hc). now intros ->.
Qed.

Lemma cr_free_cons c s :
  cr_free (String c s) = negb (Ascii.eqb CR c) && cr_free s.
Proof. unfold cr_free. cbn [char_in]. apply negb_orb. Qed.

Lemma cr_free_append a b : cr_free (a +:+ b) = cr_free a && cr_free b.
Proof.
  induction a as [|c a IH]; [reflexivity|].
  rewrite append_cons, !cr_free_cons, IH. apply andb_assoc.
Qed.

Lemma cr_free_nl_read s : forall after_cr, cr_free (nl_read after_cr s) = true.
Proof.
  induction s as [|c s IH]; intros after_cr; [reflexivity|].
  cbn [nl_read].
  destruct (Ascii.eqb_spec c LF) as [->|Hlf].
  - destruct after_cr; [apply IH|]. rewrite cr_free_cons, IH. reflexivity.
  - destruct (Ascii.eqb_spec c CR) as [->|Hcr].
    + rewrite cr_free_cons, IH. reflexivity.
    + rewrite cr_free_cons, IH, andb_true_r.
      apply negb_true_iff, Ascii.eqb_neq. congruence.
Qed.

(** A text without carriage returns that is written and read again comes
    back as it was, with either line separator. *)
Lemma nl_read_write sep s :
  cr_free s = true -> universal_newlines (nl_write sep s) = s.
Proof.
  unfold universal_newlines.
  induction s as [|c s IH]; [reflexivity|].
  rewrite cr_free_cons. intros [Hc Hs]%andb_true_iff.
  apply negb_true_iff, Ascii.eqb_neq in Hc.
  cbn [nl_write].
  destruct (Ascii.eqb_spec c LF) as [->|Hlf].
  - destruct sep; cbn; now rewrite IH.
  - cbn [nl_read].
    destruct (Ascii.eqb_spec c LF); [contradiction|].
    destruct (Ascii.eqb_spec c CR); [congruence|].
    now rewrite IH.
Qed.

Lemma read_text_written sep text :
  Utf8.valid text = true -> cr_free text = true ->
  read_text (nl_write sep text) = Ok text.
Proof.
  intros Hvalid Hcr. unfold read_text.
  now rewrite utf8_valid_write, Hvalid, nl_read_write.
Qed.

Lemma prefix_body_head s :
  String.prefix "</body>" s = true -> exists rest, s = String "<" rest.
Proof.
  destruct s as [|c rest]; [discriminate|]. cbn [String.prefix].
  destruct (ascii_dec "<" c) as [<-|]; [eauto|discriminate].
Qed.

(** The text that an injection writes is a text again, without carriage
    returns. *)
Lemma spliced_text_readable bytes text i :
  read_text bytes = Ok text ->
  occurs_at "</body>" text i ->
  Utf8.valid (take i text +:+ custom_js +:+ drop i text) = true /\
  cr_free (take i text +:+ custom_js +:+ drop i text) = true.
Proof.
  intros [Hvalid ->]%read_text_inv [_ Hhere].
  set (text := universal_newlines bytes) in *.
  assert (Htext : Utf8.valid text = true) by (unfold text; now rewrite utf8_valid_read).
  assert (Hcr : cr_free text = true) by apply cr_free_nl_read.
  rewrite <- (take_drop i text) in Htext, Hcr.
  destruct (prefix_body_head _ Hhere) as [rest Hrest]. rewrite Hrest in *.
  apply utf8_valid_cut in Htext as [Hhead Htail]; [|vm_compute; discriminate].
  rewrite cr_free_append in Hcr. apply andb_true_iff in Hcr as [Hcr1 Hcr2].
  split.
  - apply utf8_valid_app; [exact Hhead|].
    apply utf8_valid_app; [reflexivity|exact Htail].
  - rewrite !cr_free_append, Hcr1, Hcr2. reflexivity.
Qed.

(** ** inject_custom_js: the rest of the store, and a second call *)

Lemma inject_custom_js_at `{Os : PyOS} output_html f html_content
    (fs : gmap string file) i :
  fs !! file_of_path output_html = Some f ->
  can_read f = true -> can_write f = true ->
  read_text (file_bytes f) = Ok html_content ->
  last_occurrence "</body>" html_content i ->
  inject_custom_js output_html fs
  = (<[file_of_path output_html :=
         File (nl_write os_linesep
                 (take i html_content +:+ custom_js +:+ drop i html_content))
              true true]> fs, Injected).
Proof.
  intros Hfile Hread Hwrite Htext Hlast. unfold inject_custom_js.
  rewrite (open_read_inv _ _ _ _ Hfile Hread Htext), (rfind_last _ _ _ Hlast).
  replace (Z.of_nat i =? -1)%Z with false by (symmetry; apply Z.eqb_neq; lia).
  rewrite Nat2Z.id. unfold open_write. now rewrite Hfile, Hwrite, Hread.
Qed.

Lemma inject_custom_js_cases `{Os : PyOS} output_html (fs : gmap string file) :
  fst (inject_custom_js output_html fs) = fs \/
  exists f bytes,
    fs !! file_of_path output_html = Some f /\
    fst (inject_custom_js output_html fs)
    = <[file_of_path output_html := File bytes (can_read f) true]> fs.
Proof.
  unfold inject_custom_js.
  destruct (open_read fs output_html) as [html_content|e] eqn:Hopen; [|now left].
  destruct (rfind html_content "</body>" =? -1)%Z; [now left|].
  unfold open_write. unfold open_read in Hopen.
  destruct (fs !! file_of_path output_html) as [f|] eqn:Hfile; [|discriminate].
  destruct (can_write f); [|now left]. right. eauto.
Qed.

(** X18: the call changes at most the file that the path names: every
    other file keeps its state, no file is created or deleted, and two
    paths that name one file give one result. When that file is missing,
    cannot be opened for reading or is not UTF-8, and when a tag is found
    but the file cannot be opened for writing, the whole store is as before
    and the failure is reported. *)
Theorem inject_custom_js_frame `{Os : PyOS} output_html (fs : gmap string file) :
  (forall other, other <> file_of_path output_html ->
     fst (inject_custom_js output_html fs) !! other = fs !! other) /\
  (forall other,
     is_Some (fst (inject_custom_js output_html fs) !! other) <-> is_Some (fs !! other)) /\
  (forall path, file_of_path path = file_of_path output_html ->
     inject_custom_js path fs = inject_custom_js output_html fs) /\
  (fs !! file_of_path output_html = None ->
     inject_custom_js output_html fs = (fs, InjectFailed OSError)) /\
  (forall f, fs !! file_of_path output_html = Some f -> can_read f = false ->
     inject_custom_js output_html fs = (fs, InjectFailed OSError)) /\
  (forall f, fs !! file_of_path output_html = Some f -> can_read f = true ->
     Utf8.valid (file_bytes f) = false ->
     inject_custom_js output_html fs = (fs, InjectFailed ValueError)) /\
  (forall f html_content i,
     fs !! file_of_path output_html = Some f -> can_read f = true ->
     read_text (file_bytes f) = Ok html_content ->
     last_occurrence "</body>" html_content i ->
     can_write f = false ->
     inject_custom_js output_html fs = (fs, InjectFailed OSError)).
Proof.
  split; [|split; [|split; [|split; [|split; [|split]]]]].
  - intros other Hother.
    destruct (inject_custom_js_cases output_html fs) as [->|(f & bytes & _ & ->)];
      [reflexivity|].
    now apply lookup_insert_ne.
  - intros other.
    destruct (inject_custom_js_cases output_html fs) as [->|(f & bytes & Hfile & ->)];
      [reflexivity|].
    destruct (decide (file_of_path output_html = other)) as [<-|Hne].
    + rewrite lookup_insert_eq, Hfile. split; eauto.
    + now rewrite lookup_insert_ne.
  - intros path Hpath. unfold inject_custom_js, open_read, open_write.
    now rewrite Hpath.
  - intros Hfile. unfold inject_custom_js, open_read. now rewrite Hfile.
  - intros f Hfile Hread. unfold inject_custom_js, open_read.
    now rewrite Hfile, Hread.
  - intros f Hfile Hread Hvalid. unfold inject_custom_js, open_read, read_text.
    now rewrite Hfile, Hread, Hvalid.
  - intros f html_content i Hfile Hread Htext Hlast Hwrite.
    unfold inject_custom_js.
    rewrite (open_read_inv _ _ _ _ Hfile Hread Htext), (rfind_last _ _ _ Hlast).
    replace (Z.of_nat i =? -1)%Z with false by (symmetry; apply Z.eqb_neq; lia).
    unfold open_write. now rewrite Hfile, Hwrite.
Qed.

Lemma inject_custom_js_frame_witness :
  "notes.txt" <> file_of_path (PyOS := posix_os) "./graph.html" /\
  fst (inject_custom_js (Os := posix_os) "./graph.html" two_file_store) !! "notes.txt"
  = Some (plain_file "keep </body>") /\
  Utf8.valid undecodable_page = false /\
  inject_custom_js (Os := posix_os) "graph.html"
    (<["graph.html" := plain_file undecodable_page]> ∅)
  = (<["graph.html" := plain_file undecodable_page]> ∅, InjectFailed ValueError) /\
  inject_custom_js (Os := posix_os) "missing.html" two_file_store
  = (two_file_store, InjectFailed OSError).
Proof.
  split; [discriminate|]. split.
  { exact (proj1 (inject_custom_js_frame (Os := posix_os) "./graph.html" two_file_store)
             "notes.txt" ltac:(discriminate)). }
  split; [reflexivity|]. split.
  { exact (proj1 (proj2 (proj2 (proj2 (proj2 (proj2
             (inject_custom_js_frame (Os := posix_os) "graph.html"
                (<["graph.html" := plain_file undecodable_page]> ∅)))))))
             (plain_file undecodable_page) eq_refl eq_refl eq_refl). }
  exact (proj1 (proj2 (proj2 (proj2
           (inject_custom_js_frame (Os := posix_os) "missing.html" two_file_store))))
           eq_refl).
Defined.

(** X19: after an injection into a file read as UTF-8 text, the file reads
    back as that text with the block in it; cutting the block out gives
    the text that was read, which is the page with its line ends
    normalised; and a second call finds the same closing tag, moved by the
    length of the block, and puts a second copy of the block in front of
    it. *)
Theorem inject_custom_js_twice `{Os : PyOS} output_html f html_content
    (fs : gmap string file) i :
  fs !! file_of_path output_html = Some f ->
  can_read f = true -> can_write f = true ->
  read_text (file_bytes f) = Ok html_content ->
  last_occurrence "</body>" html_content i ->
  let injected := take i html_content +:+ custom_js +:+ drop i html_content in
  open_read (fst (inject_custom_js output_html fs)) output_html = Ok injected /\
  take i injected +:+ drop (i + String.length custom_js) injected = html_content /\
  last_occurrence "</body>" injected (i + String.length custom_js) /\
  inject_custom_js output_html (fst (inject_custom_js output_html fs))
  = (<[file_of_path output_html :=
         File (nl_write os_linesep
                 (take i html_content +:+ custom_js +:+ custom_js
                  +:+ drop i html_content))
              true true]> fs, Injected).
Proof.
  intros Hfile Hread Hwrite Htext Hlast injected.
  pose proof (splice_last_occurrence _ custom_js _ _ Hlast) as Hmoved.
  destruct (spliced_text_readable _ _ _ Htext (proj1 Hlast)) as [Hvalid Hcr].
  pose proof (read_text_written os_linesep _ Hvalid Hcr) as Hback.
  rewrite (inject_custom_js_at _ _ _ _ _ Hfile Hread Hwrite Htext Hlast).
  cbn [fst].
  split.
  { unfold open_read. rewrite lookup_insert_eq. exact Hback. }
  split.
  { unfold injected.
    rewrite (splice_head "</body>" custom_js _ _ Hlast).
    rewrite (splice_tail "</body>" custom_js _ _ Hlast).
    apply take_drop. }
  split; [exact Hmoved|].
  rewrite (inject_custom_js_at output_html
             (File (nl_write os_linesep injected) true true) injected _ _
             (lookup_insert_eq _ _ _) eq_refl eq_refl Hback Hmoved).
  rewrite insert_insert_eq. do 4 f_equal. unfold injected.
  rewrite (splice_head_block "</body>" custom_js _ _ Hlast).
  rewrite (splice_tail "</body>" custom_js _ _ Hlast).
  clear. generalize (take i html_content) as a, (drop i html_content) as d.
  intros a d. induction a as [|c a IH]; [reflexivity|].
  rewrite !append_cons. now f_equal.
Qed.

Lemma inject_custom_js_twice_witness :
  read_text crlf_page = Ok ("<body>" +:+ String LF ("</body>" +:+ String LF "")) /\
  last_occurrence "</body>" ("<body>" +:+ String LF ("</body>" +:+ String LF "")) 7 /\
  inject_custom_js (Os := posix_os) "graph.html"
    (fst (inject_custom_js (Os := posix_os) "graph.html"
            (<["graph.html" := plain_file crlf_page]> ∅)))
  = (<["graph.html" :=
         plain_file ("<body>" +:+ String LF (custom_js +:+ custom_js +:+ "</body>"
                                             +:+ String LF ""))]>
       (<["graph.html" := plain_file crlf_page]> ∅), Injected).
Proof.
  assert (Hlast : last_occurrence "</body>"
                    ("<body>" +:+ String LF ("</body>" +:+ String LF "")) 7)
    by (apply rfind_found; reflexivity).
  split; [reflexivity|]. split; [exact Hlast|].
  exact (proj2 (proj2 (proj2 (inject_custom_js_twice (Os := posix_os) "graph.html"
           (plain_file crlf_page) _ (<["graph.html" := plain_file crlf_page]> ∅) 7
           eq_refl eq_refl eq_refl eq_refl Hlast)))).
Defined.

(** ** Sample runs of the further properties *)

Lemma parse_dot_file_ok_iff_labels_usable_witness :
  (exists clusters, parse_dot_file flat_cluster_graph = Ok clusters) /\
  usable_label (PStr (dquote +:+ "Core" +:+ dquote)) = true /\
  ~ (exists clusters, parse_dot_file empty_list_label_graph = Ok clusters).
Proof.
  assert (Hok : exists clusters, parse_dot_file flat_cluster_graph = Ok clusters)
    by (eexists; reflexivity).
  split; [exact Hok|]. split.
  - apply (proj1 (parse_dot_file_ok_iff_labels_usable flat_cluster_graph) Hok
             (Subgraph "cluster_0" (PStr (dquote +:+ "Core" +:+ dquote))
                [Node "a"; Node (dquote +:+ "b c" +:+ dquote)] []));
      [apply list_elem_of_here|reflexivity].
  - intros Hbad.
    pose proof (proj1 (parse_dot_file_ok_iff_labels_usable empty_list_label_graph)
                  Hbad (Subgraph "cluster_b" (PList []) [Node "b"] [])) as Husable.
    discriminate Husable; [apply list_elem_of_further, list_elem_of_here|reflexivity].
Defined.

Lemma create_interactive_graph_keeps_structure_witness :
  exists nodes edges,
    create_interactive_graph (Flt := dec_float) small_graph two_clusters
    = Ok (nodes, edges) /\
    map vn_id nodes = ["a"; "b"] /\
    map (fun e => (ve_source e, ve_to e)) edges = [("a", "b"); ("a", "b")].
Proof.
  destruct (create_interactive_graph (Flt := dec_float) small_graph two_clusters)
    as [[nodes edges]|e] eqn:Hscene; [|discriminate Hscene].
  exists nodes, edges. split; [reflexivity|].
  exact (create_interactive_graph_keeps_structure (Flt := dec_float)
           small_graph two_clusters nodes edges Hscene).
Defined.


Lemma node_label_without_outer_brackets_witness :
  build_node (Flt := dec_float) ∅ "n" (<["label" := "<<b>Title</b>>"]> ∅)
  = Ok (VisNode "n" "b>Title</b" "" "" "#97C2FC" "ellipse" "Helvetica" 14 "default") /\
  char_in "<" "<>" = true /\
  startswith "b>Title</b" "<" = false /\ endswith "b>Title</b" "<" = false.
Proof.
  split; [reflexivity|]. split; [reflexivity|].
  exact (node_label_without_outer_brackets (Flt := dec_float) ∅ "n"
           (<["label" := "<<b>Title</b>>"]> ∅) _ "<" eq_refl eq_refl).
Defined.

Lemma edge_dashed_iff_style_witness :
  (exists v, (<["style" := dquote +:+ "dashed" +:+ dquote]> ∅ : gmap string string)
             !! "style" = Some v /\ clean_text v = "dashed") /\
  ve_dashes (build_edge (Flt := dec_float) "a" "b"
               (<["style" := dquote +:+ "dashed" +:+ dquote]> ∅)) = true.
Proof.
  assert (Hstyle : exists v,
            (<["style" := dquote +:+ "dashed" +:+ dquote]> ∅ : gmap string string)
            !! "style" = Some v /\ clean_text v = "dashed")
    by (eexists; split; reflexivity).
  split; [exact Hstyle|].
  exact (proj2 (proj1 (edge_dashed_iff_style (Flt := dec_float) "a" "b"
                         (<["style" := dquote +:+ "dashed" +:+ dquote]> ∅))) Hstyle).
Defined.

Lemma build_edge_reads_five_attributes_witness :
  (forall key, key ∈ edge_keys ->
     (<["label" := "calls"]> (<["URL" := "http://x"]> (<["color" := "red"]> ∅))
        : gmap string string) !! key
     = (<["color" := "red"]> ∅ : gmap string string) !! key) /\
  build_edge (Flt := dec_float) "a" "b"
    (<["label" := "calls"]> (<["URL" := "http://x"]> (<["color" := "red"]> ∅)))
  = build_edge (Flt := dec_float) "a" "b" (<["color" := "red"]> ∅).
Proof.
  assert (Hagree : forall key, key ∈ edge_keys ->
     (<["label" := "calls"]> (<["URL" := "http://x"]> (<["color" := "red"]> ∅))
        : gmap string string) !! key
     = (<["color" := "red"]> ∅ : gmap string string) !! key).
  { intros key Hkey. unfold edge_keys in Hkey.
    repeat (apply elem_of_cons in Hkey as [->|Hkey]; [reflexivity|]).
    now apply elem_of_nil in Hkey. }
  split; [exact Hagree|].
  exact (build_edge_reads_five_attributes (Flt := dec_float) "a" "b" _ _ Hagree).
Defined.

Lemma node_group_has_style_witness :
  generate_group_styles two_clusters (MT19937.seed 7)
    (fst (group_styles_in_order (Rng := mt19937_random) ["A"; "B"] (MT19937.seed 7))) /\
  build_node (Flt := dec_float) two_clusters "n1" ∅
  = Ok (VisNode "n1" "n1" "" "" "#97C2FC" "ellipse" "Helvetica" 14 "A") /\
  is_Some (fst (group_styles_in_order (Rng := mt19937_random) ["A"; "B"]
                  (MT19937.seed 7)) !! "A").
Proof.
  split; [apply two_clusters_run_ab|]. split; [reflexivity|].
  exact (proj2 (proj1 (node_group_has_style (Rng := mt19937_random) (Flt := dec_float)
                         two_clusters (MT19937.seed 7) _ "n1" ∅ _
                         (two_clusters_run_ab (MT19937.seed 7)) eq_refl)
                      "A" eq_refl)).
Defined.

(** ** The colour strings *)

Lemma hex_string_length (d : Hexadecimal.uint) :
  N.of_nat (String.length (NilEmpty.string_of_uint d)) = Unsigned.usize d.
Proof.
  induction d; cbn [NilEmpty.string_of_uint String.length Unsigned.usize];
    [reflexivity|rewrite Nat2N.inj_succ; now f_equal..].
Qed.

Lemma hex_string_digits (d : Hexadecimal.uint) :
  all_chars is_hex_digit (NilEmpty.string_of_uint d) = true.
Proof. induction d; cbn [NilEmpty.string_of_uint all_chars]; [reflexivity|exact IHd..]. Qed.

Lemma usize_nzhead d : (Unsigned.usize (Hexadecimal.nzhead d) <= Unsigned.usize d)%N.
Proof.
  induction d; cbn [Hexadecimal.nzhead Unsigned.usize]; lia.
Qed.

(** A numeral that is its own normal form and starts with a zero is the
    numeral zero. *)
Lemma unorm_fixed_zero d :
  Hexadecimal.unorm (Hexadecimal.D0 d) = Hexadecimal.D0 d -> d = Hexadecimal.Nil.
Proof.
  unfold Hexadecimal.unorm. cbn [Hexadecimal.nzhead].
  pose proof (usize_nzhead d) as Hsize.
  destruct (Hexadecimal.nzhead d) eqn:Hnz; intros Heq; try discriminate Heq.
  - now injection Heq.
  - injection Heq as ->. cbn [Unsigned.usize] in Hsize. lia.
Qed.

Lemma of_hex_uint_lower_bound d :
  match d with
  | Hexadecimal.Nil | Hexadecimal.D0 _ => True
  | _ => (16 ^ Unsigned.usize (Unsigned.tl d) <= N.of_hex_uint d)%N
  end.
Proof.
  destruct d; try exact I;
    unfold N.of_hex_uint; rewrite Unsigned.of_uint_alt;
    unfold Hexadecimal.rev; cbn [Hexadecimal.revapp Unsigned.tl];
    rewrite Unsigned.of_lu_revapp; cbn [Unsigned.of_lu]; nia.
Qed.

Lemma hex_of_N_digits n : all_chars is_hex_digit (hex_of_N n) = true.
Proof.
  unfold hex_of_N, NilZero.string_of_uint.
  destruct (N.to_hex_uint n); try apply hex_string_digits. reflexivity.
Qed.

(** A number below [16^k] is written with at most [k] digits. *)
Lemma hex_of_N_length n k :
  (n < 16 ^ N.of_nat k)%N -> (1 <= k)%nat ->
  (String.length (hex_of_N n) <= k)%nat.
Proof.
  intros Hn Hk. unfold hex_of_N.
  pose proof (HexadecimalN.Unsigned.of_to n) as Hvalue.
  pose proof (HexadecimalN.Unsigned.to_of (N.to_hex_uint n)) as Hnorm.
  rewrite Hvalue in Hnorm.
  pose proof (of_hex_uint_lower_bound (N.to_hex_uint n)) as Hlower.
  pose proof (hex_string_length (N.to_hex_uint n)) as Hlen.
  destruct (N.to_hex_uint n) as [|d|d|d|d|d|d|d|d|d|d|d|d|d|d|d|d] eqn:Hd;
    [ cbn; lia
    | rewrite (unorm_fixed_zero d (eq_sym Hnorm)); cbn; lia
    | unfold NilZero.string_of_uint;
      cbn [Unsigned.tl] in Hlower; rewrite Hvalue in Hlower;
      cbn [Unsigned.usize] in Hlen;
      assert (Unsigned.usize d < N.of_nat k)%N
        by (apply (N.pow_lt_mono_r_iff 16); [lia|]; lia);
      lia .. ].
Qed.

Lemma all_chars_append p (a b : string) :
  all_chars p (a +:+ b) = all_chars p a && all_chars p b.
Proof.
  induction a as [|c a IH]; [reflexivity|].
  rewrite append_cons. cbn [all_chars]. rewrite IH. apply andb_assoc.
Qed.

Lemma zeros_length n : String.length (zeros n) = n.
Proof. induction n as [|n IH]; [reflexivity|]. cbn. now rewrite IH. Qed.

Lemma zeros_digits n : all_chars is_hex_digit (zeros n) = true.
Proof. induction n as [|n IH]; [reflexivity|exact IH]. Qed.

(** A number of at most 24 bits is formatted as exactly six digits. *)
Lemma format_06x_rgb z :
  (0 <= z <= 16777215)%Z ->
  is_rgb_color (String "#" (format_06x z)) = true.
Proof.
  intros Hz. unfold is_rgb_color, format_06x.
  replace (z <? 0)%Z with false by (symmetry; apply Z.ltb_ge; lia).
  unfold zero_pad.
  assert (Hlen : (String.length (hex_of_N (Z.to_N z)) <= 6)%nat).
  { apply hex_of_N_length; [|lia]. change (16 ^ N.of_nat 6)%N with 16777216%N. lia. }
  rewrite length_append, zeros_length, all_chars_append, zeros_digits, hex_of_N_digits.
  apply andb_true_intro. split; [|reflexivity]. apply Nat.eqb_eq. lia.
Qed.

Section ColorFacts.
Context `{Rng : PyRandom}.
Variable reachable : rng_state -> Prop.
Hypothesis reachable_seed : reachable (rng_seed 42).
Hypothesis reachable_randint : forall st,
reachable st ->
(0 <= fst (rng_randint 0 16777215 st) <= 16777215)%Z /\
reachable (snd (rng_randint 0 16777215 st)).

Lemma draw_colors_rgb n : forall st,
reachable st ->
Forall (fun color => is_rgb_color color = true) (fst (draw_colors n st)).
Proof.
induction n as [|n IH]; intros st Hst; [constructor|].
cbn [draw_colors].
destruct (reachable_randint st Hst) as [Hrange Hnext].
destruct (rng_randint 0 16777215 st) as [r st1]. cbn [fst snd] in *.
specialize (IH st1 Hnext). destruct (draw_colors n st1) as [colors st2].
cbn [fst] in *. constructor; [|exact IH]. now apply format_06x_rgb.
Qed.

Lemma colors_rgb n st :
Forall (fun color => is_rgb_color color = true)
       (fst (generate_unique_colors n st)).
Proof. apply draw_colors_rgb, reachable_seed. Qed.

End ColorFacts.

(** X9: with a generator whose [randint(0, 0xFFFFFF)] stays in that range on
    the states reached from seed 42, the function returns exactly [n]
    strings, each a number sign followed by six lower-case hexadecimal
    digits, whatever state the generator was in. *)
Theorem generate_unique_colors_rgb `{Rng : PyRandom}
    (reachable : rng_state -> Prop) (n : nat) (st : rng_state) :
  reachable (rng_seed 42) ->
  (forall s, reachable s ->
     (0 <= fst (rng_randint 0 16777215 s) <= 16777215)%Z /\
     reachable (snd (rng_randint 0 16777215 s))) ->
  length (fst (generate_unique_colors n st)) = n /\
  Forall (fun color => is_rgb_color color = true)
         (fst (generate_unique_colors n st)).
Proof.
  intros Hseed Hstep. split.
  - apply generate_unique_colors_length.
  - exact (colors_rgb reachable Hseed Hstep n st).
Qed.

(** X10: under the same condition every background colour of the table of a
    run is such a string. *)
Theorem generate_group_styles_backgrounds_rgb `{Rng : PyRandom}
    (reachable : rng_state -> Prop) clusters st group_styles c style :
  reachable (rng_seed 42) ->
  (forall s, reachable s ->
     (0 <= fst (rng_randint 0 16777215 s) <= 16777215)%Z /\
     reachable (snd (rng_randint 0 16777215 s))) ->
  generate_group_styles clusters st group_styles ->
  group_styles !! c = Some style ->
  is_rgb_color (color_background style) = true.
Proof.
  intros Hseed Hstep (order & [Hnodup _] & ->)%generate_group_styles_inv Hstyle.
  pose proof (colors_rgb reachable Hseed Hstep (length order) st) as Hrgb.
  rewrite Forall_forall in Hrgb. apply Hrgb.
  apply (generate_group_styles_backgrounds order st _ Hnodup). eauto.
Qed.

(** *** The generator of CPython meets the condition *)

Lemma mt_word_nonneg mt k :
  Forall (fun w => (0 <= w)%Z) mt -> (0 <= MT19937.word mt k)%Z.
Proof.
  intros Hmt. unfold MT19937.word.
  destruct (mt !! k) as [w|] eqn:Hk; cbn; [|lia].
  rewrite Forall_forall in Hmt. apply Hmt.
  apply list_elem_of_lookup. eauto.
Qed.

Lemma mt_twist_nonneg mt kk :
  Forall (fun w => (0 <= w)%Z) mt ->
  Forall (fun w => (0 <= w)%Z) (MT19937.twist_at mt kk).
Proof.
  intros Hmt. unfold MT19937.twist_at.
  pose proof (mt_word_nonneg mt kk Hmt).
  pose proof (mt_word_nonneg mt (S kk mod MT19937.N) Hmt).
  pose proof (mt_word_nonneg mt ((kk + MT19937.M) mod MT19937.N) Hmt).
  destruct (decide (kk < length mt)%nat) as [Hlt|Hge].
  - apply Forall_insert; [exact Hmt|].
    apply Z.lxor_nonneg. split; intros _.
    + destruct (Z.odd _); unfold MT19937.MATRIX_A; lia.
    + apply Z.lxor_nonneg. split; intros _; [|assumption].
      apply Z.shiftr_nonneg, Z.lor_nonneg.
      split; apply Z.land_nonneg; now left.
  - rewrite list_insert_ge by lia. exact Hmt.
Qed.

Lemma mt_temper_nonneg y : (0 <= y)%Z -> (0 <= MT19937.temper y)%Z.
Proof.
  intros Hy. unfold MT19937.temper.
  assert (Hstep_r : forall a k, (0 <= a)%Z -> (0 <= Z.lxor a (Z.shiftr a k))%Z).
  { intros a k Ha. apply Z.lxor_nonneg. split; intros _; [|exact Ha].
    now apply Z.shiftr_nonneg. }
  assert (Hstep_l : forall a k m, (0 <= a)%Z -> (0 <= m)%Z ->
                      (0 <= Z.lxor a (Z.land (Z.shiftl a k) m))%Z).
  { intros a k m Ha Hm. apply Z.lxor_nonneg. split; intros _; [|exact Ha].
    apply Z.land_nonneg. now right. }
  apply Hstep_r, Hstep_l; [|lia]. apply Hstep_l; [|lia]. now apply Hstep_r.
Qed.

Lemma mt_genrand_nonneg st :
  mt_words_nonneg st ->
  (0 <= fst (MT19937.genrand_uint32 st))%Z /\
  mt_words_nonneg (snd (MT19937.genrand_uint32 st)).
Proof.
  intros Hst. unfold MT19937.genrand_uint32, mt_words_nonneg in *.
  assert (Hnext : Forall (fun w => (0 <= w)%Z)
            (MT19937.mt (if (MT19937.N <=? MT19937.index st)%nat
                         then MT19937.State
                                (foldl MT19937.twist_at (MT19937.mt st)
                                       (seq 0 MT19937.N)) 0
                         else st))).
  { destruct (MT19937.N <=? MT19937.index st)%nat; [|exact Hst].
    cbn [MT19937.mt]. generalize (seq 0 MT19937.N).
    revert Hst. generalize (MT19937.mt st).
    intros mt Hmt ks. revert mt Hmt.
    induction ks as [|k ks IH]; intros mt Hmt; [exact Hmt|].
    cbn [foldl]. apply IH. now apply mt_twist_nonneg. }
  cbn [fst snd MT19937.mt]. split; [|exact Hnext].
  apply mt_temper_nonneg. now apply mt_word_nonneg.
Qed.

Lemma mt_randbelow_range fuel n : forall st,
  mt_words_nonneg st ->
  match MT19937.randbelow fuel n st with
  | Some (r, st') => (0 <= r < n)%Z /\ mt_words_nonneg st'
  | None => True
  end.
Proof.
  induction fuel as [|fuel IH]; intros st Hst; [exact I|].
  cbn [MT19937.randbelow]. unfold MT19937.getrandbits.
  destruct (mt_genrand_nonneg st Hst) as [Hr Hnext].
  destruct (MT19937.genrand_uint32 st) as [r st']. cbn [fst snd] in *.
  destruct (Z.ltb_spec (Z.shiftr r (32 - MT19937.bit_length n)) n) as [Hlt|Hge].
  - split; [|exact Hnext]. split; [|exact Hlt]. now apply Z.shiftr_nonneg.
  - now apply IH.
Qed.

Lemma mt_randint_range st :
  mt_words_nonneg st ->
  (0 <= fst (MT19937.randint 0 16777215 st) <= 16777215)%Z /\
  mt_words_nonneg (snd (MT19937.randint 0 16777215 st)).
Proof.
  intros Hst. unfold MT19937.randint.
  pose proof (mt_randbelow_range 4096 (16777215 - 0 + 1) st Hst) as Hdraw.
  destruct (MT19937.randbelow 4096 (16777215 - 0 + 1) st) as [[r st']|].
  - destruct Hdraw as [Hr Hnext]. cbn [fst snd]. split; [lia|exact Hnext].
  - cbn [fst snd]. split; [lia|exact Hst].
Qed.

Lemma mt_seed_42_nonneg : mt_words_nonneg (MT19937.seed 42).
Proof.
  unfold mt_words_nonneg. compute_done.
Qed.

Lemma generate_unique_colors_rgb_witness :
  mt_words_nonneg (MT19937.seed 42) /\
  (forall s, mt_words_nonneg s ->
     (0 <= fst (MT19937.randint 0 16777215 s) <= 16777215)%Z /\
     mt_words_nonneg (snd (MT19937.randint 0 16777215 s))) /\
  length (fst (generate_unique_colors (Rng := mt19937_random) 5 (MT19937.seed 7))) = 5%nat /\
  Forall (fun color => is_rgb_color color = true)
         (fst (generate_unique_colors (Rng := mt19937_random) 5 (MT19937.seed 7))).
Proof.
  split; [exact mt_seed_42_nonneg|]. split; [exact mt_randint_range|].
  exact (generate_unique_colors_rgb (Rng := mt19937_random) mt_words_nonneg 5
           (MT19937.seed 7) mt_seed_42_nonneg mt_randint_range).
Defined.

Lemma generate_group_styles_backgrounds_rgb_witness :
  generate_group_styles two_clusters (MT19937.seed 7)
    (fst (group_styles_in_order (Rng := mt19937_random) ["B"; "A"] (MT19937.seed 7))) /\
  fst (group_styles_in_order (Rng := mt19937_random) ["B"; "A"] (MT19937.seed 7)) !! "A"
  = Some (GroupStyle "#0cce35" "#2B7CE9") /\
  is_rgb_color "#0cce35" = true.
Proof.
  assert (Hstyle :
    fst (group_styles_in_order (Rng := mt19937_random) ["B"; "A"] (MT19937.seed 7)) !! "A"
    = Some (GroupStyle "#0cce35" "#2B7CE9")) by (vm_compute; reflexivity).
  split; [apply two_clusters_run_ba|]. split; [exact Hstyle|].
  exact (generate_group_styles_backgrounds_rgb (Rng := mt19937_random)
           mt_words_nonneg two_clusters (MT19937.seed 7) _ "A" _
           mt_seed_42_nonneg mt_randint_range
           (two_clusters_run_ba (MT19937.seed 7)) Hstyle).
Defined.

(** ** From the description to the group of a node *)

(** X17: a node is tagged with the label of the flagged top-level group that
    declares it, when the groups that declare it agree on the label, and
    with [default] when no flagged top-level group declares it, also when
    a nested cluster does. *)
Theorem node_group_follows_top_level_clusters `{Flt : PyFloat}
    g clusters node data vn :
  parse_dot_file g = Ok clusters ->
  build_node clusters node data = Ok vn ->
  (forall label,
      direct_entry (graph_get_subgraphs g) node label ->
      (forall other, direct_entry (graph_get_subgraphs g) node other -> other = label) ->
      vn_group vn = label) /\
  ((forall label, ~ direct_entry (graph_get_subgraphs g) node label) ->
   vn_group vn = "default").
Proof.
  intros Hparse Hvn.
  apply build_node_fields in Hvn as (_ & _ & _ & _ & _ & _ & _ & _ & ->).
  split.
  - intros label Hentry Hunique.
    destruct (scan_subgraphs_complete _ _ _ _ _ Hparse Hentry) as [found Hfound].
    rewrite Hfound. cbn [from_option id]. apply Hunique.
    destruct (scan_subgraphs_sound _ _ _ _ _ Hparse Hfound) as [Hempty|Hdirect];
      [|exact Hdirect].
    rewrite lookup_empty in Hempty. discriminate Hempty.
  - intros Hnone. destruct (clusters !! node) as [label|] eqn:Hlook; [|reflexivity].
    exfalso. apply (Hnone label).
    destruct (scan_subgraphs_sound _ _ _ _ _ Hparse Hlook) as [Hempty|Hdirect];
      [|exact Hdirect].
    rewrite lookup_empty in Hempty. discriminate Hempty.
Qed.

Lemma node_group_follows_top_level_clusters_witness :
  parse_dot_file nested_cluster_graph = Ok ∅ /\
  build_node (Flt := dec_float) ∅ "x" ∅
  = Ok (VisNode "x" "x" "" "" "#97C2FC" "ellipse" "Helvetica" 14 "default") /\
  (forall label, ~ direct_entry (graph_get_subgraphs nested_cluster_graph) "x" label) /\
  vn_group (VisNode "x" "x" "" "" "#97C2FC" "ellipse" "Helvetica" 14 "default")
  = "default".
Proof.
  assert (Hnone : forall label,
            ~ direct_entry (graph_get_subgraphs nested_cluster_graph) "x" label).
  { intros label (sg & node & Hin & Hflag & _).
    apply elem_of_cons in Hin as [->|Hin]; [discriminate Hflag|].
    now apply elem_of_nil in Hin. }
  split; [reflexivity|]. split; [reflexivity|]. split; [exact Hnone|].
  exact (proj2 (node_group_follows_top_level_clusters (Flt := dec_float)
                  nested_cluster_graph ∅ "x" ∅ _ eq_refl eq_refl) Hnone).
Defined.
